(** * CrisisCommand (Aegis GH): incident store, routes and fan-out

    A shallow embedding of the server-side data layer and route handlers
    ([server/storage.ts], [server/firebase-storage.ts], [server/routes.ts],
    [shared/schema.ts]) and of the two client components whose logic the
    specification talks about ([SimpleAuthLogin], [DispatcherConsole]).

    JavaScript objects are finite maps from property names to values, the
    insertion-ordered [Map] of the in-memory store is an association list,
    and the sources of non-determinism ([randomUUID], [new Date()],
    [Date.now()], Firebase push keys) are explicit arguments or an oracle
    carried in the state. *)

From Stdlib Require Import ZArith QArith Sorted Permutation.
From stdpp Require Import gmap strings list fin_maps pretty.

Set Warnings "-register-all".
Local Open Scope Z_scope.
Local Open Scope string_scope.
Local Open Scope list_scope.

(* ===================================================================== *)
(** ** JavaScript values and objects *)
(* ===================================================================== *)

Module JS.

(** Runtime values.  [VDate t] is a [Date] object holding the epoch
    milliseconds [t]; numbers are rationals (only finite numbers occur in
    JSON).  Objects are maps from property names to values. *)
Inductive val : Type :=
  | VUndef
  | VNull
  | VBool (b : bool)
  | VNum (q : Q)
  | VStr (s : string)
  | VDate (t : Z)
  | VArr (l : list val)
  | VObj (o : gmap string val).

Abbreviation obj := (gmap string val).

(** [o.k]: reading a missing property yields [undefined]. *)
Definition get (o : obj) (k : string) : val := default VUndef (o !! k).

(** Truthiness, as used by [if (x)], [!x] and [x || y]. *)
Definition truthy (v : val) : bool :=
  match v with
  | VUndef | VNull => false
  | VBool b => b
  | VNum q => negb (Qeq_bool q 0)
  | VStr s => negb (String.eqb s "")
  | VDate _ | VArr _ | VObj _ => true
  end.

(** [a || b] *)
Definition or_else (a b : val) : val := if truthy a then a else b.

(** [v === s] for a string [s]. *)
Definition is_str (v : val) (s : string) : bool :=
  match v with
  | VStr s' => String.eqb s' s
  | _ => false
  end.

(** [a === b].  Objects, arrays and dates compare by reference; the values
    compared in this program are decoded from separate JSON documents, so
    two of them are never the same reference. *)
Definition strict_eq (a b : val) : bool :=
  match a, b with
  | VUndef, VUndef | VNull, VNull => true
  | VBool x, VBool y => Bool.eqb x y
  | VNum x, VNum y => Qeq_bool x y
  | VStr x, VStr y => String.eqb x y
  | _, _ => false
  end.

(** Object literals.  [{...a, k: v, ...b}] is
    [literal [Spread a; Field k v; Spread b]]: parts are applied left to
    right and a later part overrides an earlier one. *)
Inductive part : Type :=
  | Spread (o : obj)
  | Field (k : string) (v : val).

Definition add_part (acc : obj) (p : part) : obj :=
  match p with
  | Spread o => o ∪ acc
  | Field k v => <[k := v]> acc
  end.

Definition literal (ps : list part) : obj := foldl add_part ∅ ps.

(** The index-keyed properties of an array or of a string. *)
Fixpoint index_props (i : nat) (l : list val) : obj :=
  match l with
  | [] => ∅
  | v :: l' => <[pretty i := v]> (index_props (S i) l')
  end.

Fixpoint chars (s : string) : list val :=
  match s with
  | EmptyString => []
  | String c s' => VStr (String c EmptyString) :: chars s'
  end.

(** The own enumerable properties copied by a spread [...v] or a rest
    pattern: none for [null], [undefined], booleans, numbers and dates. *)
Definition own_props (v : val) : obj :=
  match v with
  | VObj o => o
  | VArr l => index_props 0 l
  | VStr s => index_props 0 (chars s)
  | _ => ∅
  end.

Definition is_undef (v : val) : bool :=
  match v with
  | VUndef => true
  | _ => false
  end.

(** Property access and destructuring throw a [TypeError] on [null] and
    [undefined]. *)
Definition nullish (v : val) : bool :=
  match v with
  | VUndef | VNull => true
  | _ => false
  end.

(** [v.k] for a name [k] that is not a built-in property of arrays, strings
    or dates ([None] is the [TypeError]). *)
Definition prop (v : val) (k : string) : option val :=
  if nullish v then None
  else Some (match v with VObj o => get o k | _ => VUndef end).

(** A time value outside of +-8.64e15 ms makes an invalid date. *)
Definition time_clip (t : Z) : option Z :=
  if (Z.abs t <=? 8640000000000000)%Z then Some t else None.

(** [new Date(v).getTime()]; [None] is [NaN].  A [Date] gives its time
    value, a number is truncated and clipped, [null] and booleans count as
    the numbers they convert to.  Strings, arrays and objects go through
    [Date.parse], which is not modelled: they are taken as invalid; the
    stores below only hold [Date] values made by [new Date()] in the
    fields that are read this way. *)
Definition getTime (v : val) : option Z :=
  match v with
  | VDate t => Some t
  | VNum q => time_clip (Qnum q ÷ Zpos (Qden q))
  | VNull => Some 0
  | VBool b => Some (if b then 1 else 0)
  | VUndef | VStr _ | VArr _ | VObj _ => None
  end.

(** [Array.prototype.sort(cmp)].  ECMAScript requires a stable sort, and
    a comparator result of [NaN] counts as [+0]; for a consistent
    comparator every stable sort gives the same array, here computed by
    insertion. *)
Section sort.
Context {A : Type} (cmp : A → A → Z).

Fixpoint insert_sorted (x : A) (l : list A) : list A :=
  match l with
  | [] => [x]
  | y :: l' => if (0 <? cmp y x)%Z then x :: y :: l'
               else y :: insert_sorted x l'
  end.

Definition sort (l : list A) : list A :=
  foldl (λ acc x, insert_sorted x acc) [] l.
End sort.

(** The subtraction [a - b] of two [getTime()] readings, as a comparator
    result. *)
Definition time_diff (a b : option Z) : Z :=
  match a, b with
  | Some x, Some y => x - y
  | _, _ => 0
  end.

(** [s.toUpperCase()] for the ASCII letters; other characters are kept
    (the strings it is applied to below are the ASCII service names). *)
Definition upper_ascii (c : Ascii.ascii) : Ascii.ascii :=
  let n := Ascii.nat_of_ascii c in
  if (97 <=? n)%nat && (n <=? 122)%nat then Ascii.ascii_of_nat (n - 32) else c.

Fixpoint toUpperCase (s : string) : string :=
  match s with
  | EmptyString => EmptyString
  | String c s' => String (upper_ascii c) (toUpperCase s')
  end.





(** [list.includes(v)] for a list of strings. *)
Definition includes (l : list string) (v : val) : bool :=
  existsb (is_str v) l.

End JS.

(* ===================================================================== *)
(** ** The built-in [Map<string, V>] *)
(* ===================================================================== *)

Module JSMap.
Section jsmap.
Context {V : Type}.

(** Entries in insertion order, keys pairwise distinct. *)
Definition t : Type := list (string * V).

Definition empty : t := [].

Fixpoint get (m : t) (k : string) : option V :=
  match m with
  | [] => None
  | (k', v) :: m' => if String.eqb k' k then Some v else get m' k
  end.

(** [set] replaces the value of an existing key in place and appends a
    new key at the end. *)
Fixpoint set (m : t) (k : string) (v : V) : t :=
  match m with
  | [] => [(k, v)]
  | (k', v') :: m' =>
      if String.eqb k' k then (k, v) :: m' else (k', v') :: set m' k v
  end.

Definition values (m : t) : list V := m.*2.

End jsmap.
Arguments t : clear implicits.
End JSMap.

(* ===================================================================== *)
(** ** [server/storage.ts]: the in-memory store [MemStorage] *)
(* ===================================================================== *)

Module MemStorage.
Import JS.

(** The four private maps of the class. *)
Record store : Type := Store {
  users : JSMap.t obj;
  incidents : JSMap.t obj;
  chatMessages : JSMap.t obj;
  emergencyUnits : JSMap.t obj;
}.

Definition with_users (f : JSMap.t obj → JSMap.t obj) (st : store) : store :=
  Store (f (users st)) (incidents st) (chatMessages st) (emergencyUnits st).

Definition with_incidents (f : JSMap.t obj → JSMap.t obj) (st : store) : store :=
  Store (users st) (f (incidents st)) (chatMessages st) (emergencyUnits st).

Definition with_chatMessages (f : JSMap.t obj → JSMap.t obj) (st : store) : store :=
  Store (users st) (incidents st) (f (chatMessages st)) (emergencyUnits st).

Definition with_emergencyUnits (f : JSMap.t obj → JSMap.t obj) (st : store) : store :=
  Store (users st) (incidents st) (chatMessages st) (f (emergencyUnits st)).

Definition location (lat lng : Q) (address : string) : val :=
  VObj (literal [Field "latitude" (VNum lat); Field "longitude" (VNum lng);
                 Field "address" (VStr address)]).

Definition sample_unit (id callSign unitType status : string)
    (lat lng : Q) (address : string) (createdAt : Z) : obj :=
  literal [Field "id" (VStr id); Field "callSign" (VStr callSign);
           Field "unitType" (VStr unitType); Field "status" (VStr status);
           Field "location" (location lat lng address);
           Field "currentIncidentId" VNull; Field "createdAt" (VDate createdAt)].

(** The constructor: four empty maps, then [initializeSampleData].  The
    arguments are the results of the four [randomUUID()] calls and of the
    four [new Date()] calls. *)
Definition initializeSampleData (dispatcherId id1 id2 id3 : string)
    (t0 t1 t2 t3 : Z) (st : store) : store :=
  let dispatcher :=
    literal [Field "id" (VStr dispatcherId);
             Field "phoneNumber" (VStr "+233200000001");
             Field "role" (VStr "dispatcher"); Field "name" (VStr "Sarah Mensah");
             Field "isActive" (VBool true); Field "createdAt" (VDate t0)] in
  let st := with_users (λ m, JSMap.set m dispatcherId dispatcher) st in
  let units :=
    [ (id1, sample_unit id1 "Police-191-A" "police" "available"
              (56037 # 10000) (-1870 # 10000) "Tema Station, Accra" t1);
      (id2, sample_unit id2 "AMB-193-B" "ambulance" "available"
              (55950 # 10000) (-1900 # 10000) "Ridge Hospital, Accra" t2);
      (id3, sample_unit id3 "FIRE-192-A" "fire" "busy"
              (55800 # 10000) (-2100 # 10000) "En Route" t3) ] in
  foldl (λ st u, with_emergencyUnits (λ m, JSMap.set m u.1 u.2) st) st units.

Definition constructor (dispatcherId id1 id2 id3 : string) (t0 t1 t2 t3 : Z) : store :=
  initializeSampleData dispatcherId id1 id2 id3 t0 t1 t2 t3
    (Store JSMap.empty JSMap.empty JSMap.empty JSMap.empty).

Definition getUser (id : string) (st : store) : option obj :=
  JSMap.get (users st) id.

Definition getUserByPhoneNumber (phoneNumber : string) (st : store) : option obj :=
  find (λ user, is_str (get user "phoneNumber") phoneNumber)
       (JSMap.values (users st)).

(** [id] is the result of [randomUUID()], [now] of [new Date()]. *)
Definition createUser (id : string) (now : Z) (insertUser : obj) (st : store)
    : store * obj :=
  let user :=
    literal [Spread insertUser; Field "id" (VStr id);
             Field "role" (or_else (get insertUser "role") (VStr "citizen"));
             Field "isActive" (VBool true); Field "createdAt" (VDate now)] in
  (with_users (λ m, JSMap.set m id user) st, user).

(** The result [None] is [undefined]. *)
Definition updateUser (id : string) (updates : obj) (st : store)
    : store * option obj :=
  match JSMap.get (users st) id with
  | None => (st, None)
  | Some user =>
      let updatedUser := literal [Spread user; Spread updates] in
      (with_users (λ m, JSMap.set m id updatedUser) st, Some updatedUser)
  end.

Definition getIncident (id : string) (st : store) : option obj :=
  JSMap.get (incidents st) id.

(** [filters?.k]: [undefined] when [filters] is absent. *)
Definition filter_field (filters : option obj) (k : string) : val :=
  match filters with
  | None => VUndef
  | Some f => get f k
  end.

Definition filter_by (filters : option obj) (k : string) (l : list obj) : list obj :=
  if truthy (filter_field filters k)
  then List.filter (λ o, strict_eq (get o k) (filter_field filters k)) l
  else l.

Definition createdAt_time (o : obj) : option Z := getTime (get o "createdAt").

Definition getIncidents (filters : option obj) (st : store) : list obj :=
  let incidents := JSMap.values (incidents st) in
  let incidents := filter_by filters "status" incidents in
  let incidents := filter_by filters "assignedDispatcherId" incidents in
  sort (λ a b, time_diff (createdAt_time b) (createdAt_time a)) incidents.

(** [id] is the result of [randomUUID()]; [created] and [updated] are the
    two [new Date()] readings. *)
Definition createIncident (id : string) (created updated : Z)
    (incidentData : obj) (st : store) : store * obj :=
  let incident :=
    literal [Spread incidentData; Field "id" (VStr id);
             Field "status" (VStr "new");
             Field "assignedUnitId" VNull;
             Field "assignedDispatcherId" VNull;
             Field "mediaUrls" (VArr []);
             Field "description" (or_else (get incidentData "description") VNull);
             Field "createdAt" (VDate created);
             Field "updatedAt" (VDate updated)] in
  (with_incidents (λ m, JSMap.set m id incident) st, incident).

(** [now] is the result of [new Date()]. *)
Definition updateIncident (id : string) (now : Z) (updates : obj) (st : store)
    : store * option obj :=
  match JSMap.get (incidents st) id with
  | None => (st, None)
  | Some incident =>
      let updatedIncident :=
        literal [Spread incident; Spread updates; Field "updatedAt" (VDate now)] in
      (with_incidents (λ m, JSMap.set m id updatedIncident) st, Some updatedIncident)
  end.

Definition getChatMessages (incidentId : string) (st : store) : list obj :=
  sort (λ a b, time_diff (createdAt_time a) (createdAt_time b))
       (List.filter (λ msg, is_str (get msg "incidentId") incidentId)
                    (JSMap.values (chatMessages st))).

Definition createChatMessage (id : string) (now : Z) (messageData : obj)
    (st : store) : store * obj :=
  let message :=
    literal [Spread messageData; Field "id" (VStr id);
             Field "messageType" (or_else (get messageData "messageType") (VStr "text"));
             Field "createdAt" (VDate now)] in
  (with_chatMessages (λ m, JSMap.set m id message) st, message).

Definition getEmergencyUnits (filters : option obj) (st : store) : list obj :=
  let units := JSMap.values (emergencyUnits st) in
  let units := filter_by filters "status" units in
  filter_by filters "unitType" units.

Definition getEmergencyUnit (id : string) (st : store) : option obj :=
  JSMap.get (emergencyUnits st) id.

Definition createEmergencyUnit (id : string) (now : Z) (unitData : obj)
    (st : store) : store * obj :=
  let unit :=
    literal [Spread unitData; Field "id" (VStr id);
             Field "status" (VStr "available");
             Field "location" (or_else (get unitData "location") VNull);
             Field "currentIncidentId" VNull; Field "createdAt" (VDate now)] in
  (with_emergencyUnits (λ m, JSMap.set m id unit) st, unit).

Definition updateEmergencyUnit (id : string) (updates : obj) (st : store)
    : store * option obj :=
  match JSMap.get (emergencyUnits st) id with
  | None => (st, None)
  | Some unit =>
      let updatedUnit := literal [Spread unit; Spread updates] in
      (with_emergencyUnits (λ m, JSMap.set m id updatedUnit) st, Some updatedUnit)
  end.

(** The stores a program can hold: the one the constructor makes, and
    those the mutating methods make from them. *)
Inductive reachable : store → Prop :=
  | reach_constructor dispatcherId id1 id2 id3 t0 t1 t2 t3 :
      reachable (constructor dispatcherId id1 id2 id3 t0 t1 t2 t3)
  | reach_createUser id now insertUser st :
      reachable st → reachable (createUser id now insertUser st).1
  | reach_updateUser id updates st :
      reachable st → reachable (updateUser id updates st).1
  | reach_createIncident id created updated incidentData st :
      reachable st → reachable (createIncident id created updated incidentData st).1
  | reach_updateIncident id now updates st :
      reachable st → reachable (updateIncident id now updates st).1
  | reach_createChatMessage id now messageData st :
      reachable st → reachable (createChatMessage id now messageData st).1
  | reach_createEmergencyUnit id now unitData st :
      reachable st → reachable (createEmergencyUnit id now unitData st).1
  | reach_updateEmergencyUnit id updates st :
      reachable st → reachable (updateEmergencyUnit id updates st).1.

(** [m.createdAt] is a [Date]. *)
Definition dated (m : obj) : Prop := is_Some (createdAt_time m).

(** [a.createdAt] is not later than [b.createdAt]. *)
Definition created_le (a b : obj) : Prop :=
  match createdAt_time a, createdAt_time b with
  | Some x, Some y => (x ≤ y)%Z
  | _, _ => False
  end.

(** One call of a mutating method. *)
Inductive step : store → store → Prop :=
  | step_createUser id now insertUser st :
      step st (createUser id now insertUser st).1
  | step_updateUser id updates st :
      step st (updateUser id updates st).1
  | step_createIncident id created updated incidentData st :
      step st (createIncident id created updated incidentData st).1
  | step_updateIncident id now updates st :
      step st (updateIncident id now updates st).1
  | step_createChatMessage id now messageData st :
      step st (createChatMessage id now messageData st).1
  | step_createEmergencyUnit id now unitData st :
      step st (createEmergencyUnit id now unitData st).1
  | step_updateEmergencyUnit id updates st :
      step st (updateEmergencyUnit id updates st).1.

End MemStorage.

(* ===================================================================== *)
(** ** The fragment of the [zod] validation library used by the schemas *)
(* ===================================================================== *)

Module Zod.
Import JS.

Inductive schema : Type :=
  | ZString
  | ZNumber
  | ZBoolean
  | ZEnum (values : list string)
  | ZOptional (inner : schema)
  | ZDefault (inner : schema) (d : val)
  | ZObject (shape : list (string * schema)).

(** The per-key loop of an object schema over the input object [o]:
    every key of the shape is parsed against [o[key]], unknown keys are
    stripped, and a key is kept in the output when it was present in the
    input or its parsed value is defined. *)
Definition parse_shape (parse : schema → val → option val) (o : obj)
    : list (string * schema) → option obj :=
  fix keys sh :=
    match sh with
    | [] => Some ∅
    | (k, sk) :: sh' =>
        match parse sk (get o k), keys sh' with
        | Some r, Some out =>
            Some (if bool_decide (is_Some (o !! k)) || negb (is_undef r)
                  then <[k := r]> out else out)
        | _, _ => None
        end
    end.

(** [schema.parse(v)]; [None] is a thrown [ZodError].  An object schema
    accepts plain objects only. *)
Fixpoint parse (s : schema) (v : val) : option val :=
  match s with
  | ZString => match v with VStr _ => Some v | _ => None end
  | ZNumber => match v with VNum _ => Some v | _ => None end
  | ZBoolean => match v with VBool _ => Some v | _ => None end
  | ZEnum values =>
      match v with
      | VStr x => if bool_decide (x ∈ values) then Some v else None
      | _ => None
      end
  | ZOptional inner =>
      match v with VUndef => Some VUndef | _ => parse inner v end
  | ZDefault inner d =>
      match v with VUndef => parse inner d | _ => parse inner v end
  | ZObject shape =>
      match v with
      | VObj o => VObj <$> parse_shape parse o shape
      | _ => None
      end
  end.

(** [schema.extend(ext)]: the keys of [ext] override those of the shape. *)
Definition extend (s : schema) (ext : list (string * schema)) : schema :=
  match s with
  | ZObject shape =>
      ZObject (List.filter (λ kv, bool_decide (kv.1 ∉ ext.*1)) shape ++ ext)
  | _ => s
  end.

End Zod.

(* ===================================================================== *)
(** ** [shared/schema.ts]: the insert schemas *)
(* ===================================================================== *)

Module Schema.
Import JS Zod.

Definition locationSchema : schema :=
  ZObject [ ("latitude", ZNumber);
            ("longitude", ZNumber);
            ("address", ZString);
            ("ghanaPostGPS", ZOptional ZString) ].

Definition insertIncidentSchema : schema :=
  ZObject [ ("serviceId", ZString);
            ("type", ZString);
            ("category", ZString);
            ("priority", ZDefault (ZEnum ["low"; "medium"; "high"; "critical"]) (VStr "medium"));
            ("title", ZString);
            ("description", ZOptional ZString);
            ("location", locationSchema);
            ("serviceNumber", ZString);
            ("isSilent", ZDefault ZBoolean (VBool false));
            ("isOffline", ZDefault ZBoolean (VBool false)) ].

Definition insertIncidentAssignmentSchema : schema :=
  ZObject [ ("incidentId", ZString);
            ("responderId", ZString);
            ("assignedById", ZString);
            ("notes", ZOptional ZString) ].


End Schema.

(* ===================================================================== *)
(** ** The server state and its monad *)
(* ===================================================================== *)

Module Server.
Import JS.

(** The collections of the hosted database that the modelled methods
    touch.  The SDK calls are taken as a keyed document store whose writes
    succeed: [set] replaces the document at a path and [update] overwrites
    the given children of a document, creating it when it is absent.
    This is what the database does with a document that it takes and
    keeps as it is; [accepts] and [plain] below say what the SDK refuses
    and what the database does not keep. *)
Record database : Type := Database {
  incidents : gmap string obj;
  incidentAssignments : gmap string obj;
  chatMessages : gmap string obj;
  auditLogs : gmap string obj;
}.

Definition fb_set (coll : gmap string obj) (id : string) (doc : obj) : gmap string obj :=
  <[id := doc]> coll.

Definition fb_update (coll : gmap string obj) (id : string) (updates : obj)
    : gmap string obj :=
  <[id := updates ∪ default ∅ (coll !! id)]> coll.

(** [WebSocket.readyState] *)
Inductive readyState : Type := CONNECTING | OPEN | CLOSING | CLOSED.

Definition is_open (r : readyState) : bool :=
  match r with OPEN => true | _ => false end.

(** A connected client socket of [wss.clients], with the frames the
    server has sent on it so far (oldest first). *)
Record socket : Type := Socket {
  state : readyState;
  frames : list val;
}.

(** The whole server: the database, the sockets in [wss.clients] (in the
    iteration order of the set), and the oracle for [Date.now()] readings
    and for push keys with the number of readings taken so far. *)
Record world : Type := World {
  db : database;
  clients : list socket;
  now_at : nat → Z;
  ticks : nat;
  key_at : nat → string;
  pushes : nat;
}.

Definition M (A : Type) : Type := world → A * world.

#[global] Instance M_ret : MRet M := λ A a w, (a, w).

#[global] Instance M_bind : MBind M := λ A B f m w, let '(a, w') := m w in f a w'.

Definition modify_db (f : database → database) : M unit :=
  λ w, (tt, World (f (db w)) (clients w) (now_at w) (ticks w) (key_at w) (pushes w)).

Definition read_db : M database := λ w, (db w, w).

Definition modify_clients (f : list socket → list socket) : M unit :=
  λ w, (tt, World (db w) (f (clients w)) (now_at w) (ticks w) (key_at w) (pushes w)).

(** [Date.now()] *)
Definition Date_now : M Z :=
  λ w, (now_at w (ticks w),
        World (db w) (clients w) (now_at w) (S (ticks w)) (key_at w) (pushes w)).

(** [push(ref(database)).key!] *)
Definition push_key : M string :=
  λ w, (key_at w (pushes w),
        World (db w) (clients w) (now_at w) (ticks w) (key_at w) (S (pushes w))).

Definition with_incidents (f : gmap string obj → gmap string obj) (d : database) : database :=
  Database (f (incidents d)) (incidentAssignments d) (chatMessages d) (auditLogs d).

Definition with_incidentAssignments (f : gmap string obj → gmap string obj) (d : database)
    : database :=
  Database (incidents d) (f (incidentAssignments d)) (chatMessages d) (auditLogs d).

Definition with_chatMessages (f : gmap string obj → gmap string obj) (d : database) : database :=
  Database (incidents d) (incidentAssignments d) (f (chatMessages d)) (auditLogs d).

Definition with_auditLogs (f : gmap string obj → gmap string obj) (d : database) : database :=
  Database (incidents d) (incidentAssignments d) (chatMessages d) (f (auditLogs d)).

(** A number holding an epoch reading. *)
Definition VTime (t : Z) : val := VNum (inject_Z t).


(** *** What the database takes

    The database SDK ([firebase/database]) is not part of the repository.
    From its documentation: [set] and [update] throw, before anything is
    written, on a value that holds [undefined] or an object with a
    property name that is empty or has a control character or one of
    [. # $ / [ ]]; a path is checked in the same way; and the database
    keeps neither [null] nor an empty object or array, so a child written
    as such is absent afterwards.  (The limits on sizes and on the depth
    of a document, and the reserved names [.sv], [.value] and [.priority],
    are left out: such a name counts as refused.) *)
Definition key_char (c : Ascii.ascii) : bool :=
  let n := Ascii.nat_of_ascii c in
  (32 <=? n)%nat && negb (n =? 127)%nat
  && negb (existsb (Ascii.eqb c) (String.list_ascii_of_string ".#$/[]")).

(** A property name, or a segment of a path, that the SDK takes. *)
Definition valid_key (k : string) : bool :=
  negb (String.eqb k "") && forallb key_char (String.list_ascii_of_string k).

(** The values on which [set] and [update] do not throw. *)
Fixpoint accepts (v : val) : bool :=
  match v with
  | VUndef => false
  | VArr l => forallb accepts l
  | VObj o => map_fold (λ k v' ok, valid_key k && accepts v' && ok) true o
  | VNull | VBool _ | VNum _ | VStr _ | VDate _ => true
  end.

(** Strings, numbers and booleans: the values that the database takes and
    keeps as they are. *)
Definition scalar (v : val) : bool :=
  match v with
  | VBool _ | VNum _ | VStr _ => true
  | _ => false
  end.

(** An object all of whose properties have names that the SDK takes and
    values that the database keeps as they are: written by [fb_set] or
    [fb_update], it is stored as [fb_set] and [fb_update] say. *)
Definition plain (o : obj) : bool :=
  bool_decide (map_Forall (λ k v, valid_key k = true ∧ scalar v = true) o).

End Server.

(* ===================================================================== *)
(** ** [server/firebase-storage.ts]: the store behind the routes *)
(* ===================================================================== *)

Module FirebaseStorage.
Import JS Server.

Definition generateId : M string := push_key.

Definition createAuditLog (userId : val) (action : string)
    (entityType entityId details : val) : M unit :=
  id ← generateId;
  now ← Date_now;
  let auditLog :=
    literal [Field "id" (VStr id); Field "userId" userId;
             Field "action" (VStr action); Field "entityType" entityType;
             Field "entityId" entityId;
             Field "details" (or_else details (VObj ∅));
             Field "createdAt" (VTime now)] in
  modify_db (with_auditLogs (λ c, fb_set c id auditLog)).

Definition createIncident (incident : obj) : M obj :=
  id ← generateId;
  created ← Date_now;
  updated ← Date_now;
  let newIncident :=
    literal [Field "id" (VStr id); Spread incident;
             Field "status" (VStr "new"); Field "mediaUrls" (VArr []);
             Field "metadata" (VObj ∅);
             Field "createdAt" (VTime created); Field "updatedAt" (VTime updated)] in
  modify_db (with_incidents (λ c, fb_set c id newIncident));;
  createAuditLog (or_else (get incident "reporterId") (VStr "system"))
    "create_incident" (VStr "incident") (VStr id)
    (VObj (literal [Field "type" (get incident "type");
                    Field "serviceId" (get incident "serviceId")]));;
  mret newIncident.

(** [snapshot.val()] is [null] for a missing document. *)
Definition getIncident (id : string) : M val :=
  d ← read_db;
  mret (match incidents d !! id with Some o => VObj o | None => VNull end).

Definition createIncidentAssignment (assignment : obj) : M obj :=
  id ← generateId;
  now ← Date_now;
  let newAssignment :=
    literal [Field "id" (VStr id); Spread assignment;
             Field "status" (VStr "assigned"); Field "assignedAt" (VTime now)] in
  modify_db (with_incidentAssignments (λ c, fb_set c id newAssignment));;
  mret newAssignment.

Definition assignIncident (incidentId : string) (responderId assignedById : val)
    : M unit :=
  assignedAt ← Date_now;
  updatedAt ← Date_now;
  let updates :=
    literal [Field "assignedResponderId" responderId;
             Field "assignedById" assignedById;
             Field "assignedAt" (VTime assignedAt);
             Field "status" (VStr "assigned");
             Field "updatedAt" (VTime updatedAt)] in
  modify_db (with_incidents (λ c, fb_update c incidentId updates));;
  (* Create assignment record *)
  createIncidentAssignment
    (literal [Field "incidentId" (VStr incidentId);
              Field "responderId" responderId;
              Field "assignedById" assignedById]);;
  (* Create audit log *)
  createAuditLog assignedById "assign_incident" (VStr "incident") (VStr incidentId)
    (VObj (literal [Field "responderId" responderId])).

Definition updateIncidentStatus (id : string) (status : val) (updates : obj)
    : M unit :=
  now ← Date_now;
  let updateData :=
    literal [Field "status" status; Field "updatedAt" (VTime now); Spread updates] in
  updateData ←
    (if is_str status "resolved"
     then completed ← Date_now; mret (<["completedAt" := VTime completed]> updateData)
     else mret updateData);
  modify_db (with_incidents (λ c, fb_update c id updateData));;
  createAuditLog (VStr "system") "update_status" (VStr "incident") (VStr id)
    (VObj (literal [Field "status" status])).

Definition updateIncident (id : string) (updates : obj) : M unit :=
  now ← Date_now;
  modify_db (with_incidents (λ c,
    fb_update c id (literal [Spread updates; Field "updatedAt" (VTime now)]))).

Definition createChatMessage (message : obj) (senderId : val) : M obj :=
  id ← generateId;
  now ← Date_now;
  let newMessage :=
    literal [Field "id" (VStr id); Spread message; Field "senderId" senderId;
             Field "isRead" (VBool false); Field "metadata" (VObj ∅);
             Field "createdAt" (VTime now)] in
  modify_db (with_chatMessages (λ c, fb_set c id newMessage));;
  mret newMessage.

(** [createChatMessage] as the body of a [try] runs it: the [set] at its
    end throws on a document that the SDK refuses, after the key of the
    message and the time have been taken.  [None] is the exception. *)
Definition try_createChatMessage (message : obj) (senderId : val) : M (option obj) :=
  id ← generateId;
  now ← Date_now;
  let newMessage :=
    literal [Field "id" (VStr id); Spread message; Field "senderId" senderId;
             Field "isRead" (VBool false); Field "metadata" (VObj ∅);
             Field "createdAt" (VTime now)] in
  if accepts (VObj newMessage)
  then modify_db (with_chatMessages (λ c, fb_set c id newMessage));;
       mret (Some newMessage)
  else mret None.

(** The statuses of an incident that is still open. *)
Definition active_statuses : list string :=
  ["new"; "assigned"; "accepted"; "en_route"; "on_scene"].

(** [getActiveIncidents].  [Object_values] lists the documents of a
    collection as [Object.values(snapshot.val())] does; the order in which
    the snapshot lists them is left to this argument.  An empty collection
    reads as [null]. *)
Definition getActiveIncidents (Object_values : gmap string obj → list obj)
    : M (list obj) :=
  d ← read_db;
  if bool_decide (incidents d = ∅) then mret []
  else mret (List.filter (λ incident, includes active_statuses (get incident "status"))
                         (Object_values (incidents d))).

End FirebaseStorage.

(* ===================================================================== *)
(** ** [server/routes.ts]: route handlers and the WebSocket server *)
(* ===================================================================== *)

Module Routes.
Import JS Zod Schema Server.

(** [res.status(code).json(body)] *)
Record response : Type := Response {
  code : Z;
  body : val;
}.

(** The [error] property of an error body.  For a [ZodError] the body also
    has a [details] property with the issue list of the library, which is
    left out. *)
Definition error_body (message : string) : val :=
  VObj (literal [Field "error" (VStr message)]).

Definition handleError (message : string) : response :=
  Response 500 (error_body message).

(** [req.body.k] once [req.body] is known not to be [null] or [undefined]. *)
Definition body_prop (b : val) (k : string) : val := default VUndef (prop b k).

(** [insertIncidentSchema.extend({ reporterId: z.string().optional() })] *)
Definition incidentRequestSchema : schema :=
  extend insertIncidentSchema [("reporterId", ZOptional ZString)].


(** [POST /api/incidents] *)
Definition post_incident (reqBody : val) : M response :=
  match parse incidentRequestSchema reqBody with
  | Some (VObj incidentData) =>
      incident ← FirebaseStorage.createIncident incidentData;
      mret (Response 201 (VObj incident))
  | _ => mret (Response 400 (error_body "Invalid incident data"))
  end.

(** [PATCH /api/incidents/:id].  Destructuring [req.body] throws on [null]
    and [undefined], which the handler turns into a 500. *)
Definition patch_incident (id : string) (reqBody : val) : M response :=
  match prop reqBody "status" with
  | None => mret (handleError "Failed to update incident")
  | Some status =>
      let updates := delete "status" (own_props reqBody) in
      (if truthy status
       then FirebaseStorage.updateIncidentStatus id status updates
       else FirebaseStorage.updateIncident id updates);;
      updatedIncident ← FirebaseStorage.getIncident id;
      mret (Response 200 updatedIncident)
  end.

(** [POST /api/incidents/:id/assign] *)
Definition post_assign (id : string) (reqBody : val) : M response :=
  match prop reqBody "responderId" with
  | None => mret (handleError "Failed to assign incident")
  | Some responderId =>
      let assignedById := or_else (body_prop reqBody "assignedById") (VStr "system") in
      if negb (truthy responderId)
      then mret (Response 400 (error_body "Responder ID is required"))
      else
        FirebaseStorage.assignIncident id responderId assignedById;;
        incident ← FirebaseStorage.getIncident id;
        mret (Response 200 incident)
  end.


(** [client.send(JSON.stringify(frame))] on one socket; a frame is kept as
    the value that is serialised. *)
Definition send (frame : val) (client : socket) : socket :=
  Socket (state client) (frames client ++ [frame]).

(** [wss.clients.forEach(client => { if (client.readyState === WebSocket.OPEN) ... })] *)
Definition broadcast (frame : val) : M unit :=
  modify_clients (map (λ client, if is_open (state client) then send frame client else client)).

(** [ws.on('message', ...)].  [data] is the result of
    [JSON.parse(data.toString())], [None] when it throws; every exception
    in the handler is caught and logged, so a message that the database
    refuses is neither stored nor sent.  The handler is one step of the
    server: the sockets it sends to are those that are open when the
    message has been stored. *)
Definition on_message (data : option val) : M unit :=
  match data with
  | None => mret tt
  | Some message =>
      match prop message "type" with
      | None => mret tt
      | Some type =>
          if is_str type "chat_message"
          then
            chatMessage ← FirebaseStorage.try_createChatMessage
              (literal [Field "incidentId" (body_prop message "incidentId");
                        Field "message" (body_prop message "content");
                        Field "messageType" (VStr "text")])
              (body_prop message "senderId");
            match chatMessage with
            | Some chatMessage =>
                (* Broadcast to connected clients *)
                broadcast (VObj (literal [Field "type" (VStr "new_message");
                                          Field "message" (VObj chatMessage)]))
            | None => mret tt
            end
          else mret tt
      end
  end.



(** [GET /api/incidents] *)
Definition get_incidents (Object_values : gmap string obj → list obj) : M response :=
  incidents ← FirebaseStorage.getActiveIncidents Object_values;
  mret (Response 200 (VArr (VObj <$> incidents))).





(** The types of the schema. *)
Definition typed_string (v : val) : bool :=
  match v with VStr _ => true | _ => false end.

Definition typed_number (v : val) : bool :=
  match v with VNum _ => true | _ => false end.

Definition typed_boolean (v : val) : bool :=
  match v with VBool _ => true | _ => false end.

(** A property that may be missing. *)
Definition optional (p : val → bool) (v : val) : bool := is_undef v || p v.

(** What the specification calls a valid body of [POST /api/incidents],
    spelled out in its words and those of the schema, to be compared with
    [parse incidentRequestSchema]: a location object with numeric
    latitude, numeric longitude and string address (and, when given, a
    string [ghanaPostGPS]), the five required strings, and the other
    properties of the schema missing or of their type. *)
Definition valid_location (v : val) : bool :=
  match v with
  | VObj loc =>
      typed_number (get loc "latitude") && typed_number (get loc "longitude")
      && typed_string (get loc "address")
      && optional typed_string (get loc "ghanaPostGPS")
  | _ => false
  end.

Definition valid_incident_body (reqBody : val) : bool :=
  match reqBody with
  | VObj o =>
      typed_string (get o "serviceId") && typed_string (get o "type")
      && typed_string (get o "category")
      && optional (includes ["low"; "medium"; "high"; "critical"]) (get o "priority")
      && typed_string (get o "title")
      && optional typed_string (get o "description")
      && valid_location (get o "location")
      && typed_string (get o "serviceNumber")
      && optional typed_boolean (get o "isSilent")
      && optional typed_boolean (get o "isOffline")
      && optional typed_string (get o "reporterId")
  | _ => false
  end.

End Routes.

(* ===================================================================== *)
(** ** Client components *)
(* ===================================================================== *)

Module SimpleAuthLogin.
Import JS.

(** The component state edited by the form. *)
Record form : Type := Form {
  phoneNumber : string;
  name : string;
  role : string;
  serviceId : string;
}.

(** What a submit does: an [alert], or a [setTimeout] after which
    [onLogin(user)] is called. *)
Inductive outcome : Type :=
  | Alert (message : string)
  | LoginAfter (delay_ms : Z) (user : obj).

(** [t_id], [t_created] and [t_updated] are the three [Date.now()]
    readings. *)
Definition handleSubmit (f : form) (t_id t_created t_updated : Z) : outcome :=
  if negb (truthy (VStr (phoneNumber f))) || negb (truthy (VStr (name f)))
  then Alert "Please fill in all required fields"
  else
    (* Simulate authentication *)
    let user :=
      literal [Field "id" (VStr (pretty t_id));
               Field "phoneNumber" (VStr (phoneNumber f));
               Field "role" (VStr (role f));
               Field "serviceId"
                 (if String.eqb (role f) "responder" || String.eqb (role f) "service_admin"
                  then VStr (serviceId f) else VUndef);
               Field "name" (VStr (name f));
               Field "preferredLanguage" (VStr "en");
               Field "isActive" (VBool true);
               Field "createdAt" (Server.VTime t_created);
               Field "updatedAt" (Server.VTime t_updated)] in
    LoginAfter 1000 user.

End SimpleAuthLogin.

Module DispatcherConsole.
Import JS.

(** The [select] of the incidents query: the active incidents. *)
Definition select (allIncidents : list obj) : list obj :=
  List.filter (λ incident, negb (is_str (get incident "status") "resolved")
                           && negb (is_str (get incident "status") "closed"))
              allIncidents.

Definition availableUnits (emergencyUnits : list obj) : list obj :=
  List.filter (λ unit, is_str (get unit "status") "available") emergencyUnits.

(** The guard in front of the Assign Unit button of an incident card. *)
Definition assign_offered (incident : obj) : bool :=
  is_str (get incident "status") "new".

(** The body sent by the [assignIncident] mutation. *)
Definition assign_body (currentUserId : string) (unitId : val) : obj :=
  literal [Field "status" (VStr "assigned");
           Field "assignedUnitId" unitId;
           Field "assignedDispatcherId" (VStr currentUserId)].

(** What a click on Assign Unit does: the mutation for a unit, or the
    toast for an incident of the given type. *)
Inductive click : Type :=
  | Mutate (incidentId unitId : val)
  | NoAvailableUnits (type : val).

Definition unit_matches (incident unit : obj) : bool :=
  strict_eq (get unit "unitType") (get incident "type")
  || is_str (get unit "unitType") "unified".

Definition on_assign_click (emergencyUnits : list obj) (incident : obj) : click :=
  match find (unit_matches incident) (availableUnits emergencyUnits) with
  | Some availableUnit => Mutate (get incident "id") (get availableUnit "id")
  | None => NoAvailableUnits (get incident "type")
  end.

(** The arguments of an [apiRequest]: the method, the URL as the text in
    front of the value spliced into it and that value, and the body. *)
Inductive method : Type := GET | POST | PUT | PATCH.

Record request : Type := Request {
  verb : method;
  url : string;
  url_param : val;
  data : val;
}.

(** The request of the [assignIncident] mutation. *)
Definition mutationFn (currentUserId : string) (incidentId unitId : val) : request :=
  Request PUT "/api/incidents/" incidentId (VObj (assign_body currentUserId unitId)).

End DispatcherConsole.

(** [client/src/pages/Home.tsx]: the user and the view of the page. *)
Module Home.
Import JS.

Inductive ViewType : Type := citizen | service | global_admin.

Record state : Type := State {
  currentUser : option obj;
  currentView : ViewType;
}.

(** [useState] initial values. *)
Definition initial : state := State None citizen.

Definition logged_in (st : state) : bool :=
  match currentUser st with
  | Some _ => true
  | None => false
  end.

(** [currentUser?.role] *)
Definition role (st : state) : val :=
  match currentUser st with
  | Some user => get user "role"
  | None => VUndef
  end.

(** The effect that follows a change of [currentUser]: the view is
    determined by the role. *)
Definition view_of_role (r : val) : ViewType :=
  if is_str r "citizen" then citizen
  else if is_str r "responder" || is_str r "service_admin" then service
  else if is_str r "global_admin" then global_admin
  else citizen.

Definition role_effect (st : state) : state :=
  match currentUser st with
  | Some user => State (currentUser st) (view_of_role (get user "role"))
  | None => st
  end.

Definition handleLogin (user : obj) (st : state) : state :=
  State (Some user) (currentView st).

Definition handleLogout (st : state) : state := State None citizen.

Definition handleViewChange (view : ViewType) (st : state) : state :=
  (* Only allow view changes for certain roles *)
  if is_str (role st) "global_admin" then State (currentUser st) view
  else if is_str (role st) "service_admin"
          && negb (match view with global_admin => true | _ => false end)
  then State (currentUser st) view
  else if negb (logged_in st) || is_str (role st) "citizen"
  then State (currentUser st) citizen
  else st.

(** Called only while a user is logged in. *)
Definition getAvailableViews (user : obj) : list ViewType :=
  let views := [citizen] in
  let views :=
    if is_str (get user "role") "responder" || is_str (get user "role") "service_admin"
    then views ++ [service] else views in
  if is_str (get user "role") "global_admin"
  then views ++ [service; global_admin] else views.

(** The events of the page.  The login screen, and with it [handleLogin],
    is rendered only while nobody is logged in; the navigation bar, and
    with it [handleViewChange] and [handleLogout], only while somebody is.
    The role effect runs after the render that follows [handleLogin]. *)
Inductive event : Type :=
  | Login (user : obj)
  | RoleEffect
  | Logout
  | ViewChange (view : ViewType).

Definition enabled (e : event) (st : state) : bool :=
  match e with
  | Login _ => negb (logged_in st)
  | RoleEffect => true
  | Logout | ViewChange _ => logged_in st
  end.

Definition handle (e : event) (st : state) : state :=
  match e with
  | Login user => handleLogin user st
  | RoleEffect => role_effect st
  | Logout => handleLogout st
  | ViewChange view => handleViewChange view st
  end.

Inductive reachable : state → Prop :=
  | reach_initial : reachable initial
  | reach_event e st : reachable st → enabled e st = true → reachable (handle e st).

End Home.

(** [ServiceDashboard]: the filter of the incident list and the guards of
    the two selects on an incident card. *)
Module ServiceDashboard.
Import JS.

Definition filteredIncidents (statusFilter : string) (incidents : list obj) : list obj :=
  List.filter
    (λ incident,
       if String.eqb statusFilter "all" then true
       else if String.eqb statusFilter "active"
       then includes ["new"; "assigned"; "accepted"; "en_route"; "on_scene"]
                     (get incident "status")
       else is_str (get incident "status") statusFilter)
    incidents.

(** The responders offered in the assignment select. *)
Definition assignable (responders : list obj) : list obj :=
  List.filter (λ r, is_str (get r "role") "responder" && truthy (get r "isActive"))
              responders.

(** The assignment select is rendered. *)
Definition assign_offered (currentUser incident : obj) : bool :=
  is_str (get currentUser "role") "service_admin"
  && negb (truthy (get incident "assignedResponderId")).


(** The statuses of the status select. *)
Definition status_options : list string :=
  ["accepted"; "en_route"; "on_scene"; "resolved"].


Definition status_data (status : string) : val :=
  VObj (literal [Field "status" (VStr status)]).

End ServiceDashboard.

(** [LiveChat]: sending a message and taking one from the socket. *)
Module LiveChat.
Import JS.




End LiveChat.

(** [CitizenInterface]: the SOS buttons of the first citizen screen. *)
Module CitizenInterface.
Import JS.

(** The outcome of the [emergencySOS] mutation function before the
    request: an error, or the body of the [POST /api/incidents]. *)
Inductive request : Type :=
  | Failed (message : string)
  | Post (incidentData : obj).

(** [isSilent] is [None] when the caller leaves it out. *)
Definition emergencySOS (type serviceNumber : string) (isSilent : option bool)
    (location : option obj) (currentUserId : string) : request :=
  match location with
  | None => Failed "Location not available"
  | Some location =>
      let silent := match isSilent with Some b => b | None => false end in
      Post (literal
        [Field "type" (VStr type);
         Field "priority" (VStr "high");
         Field "title" (VStr (toUpperCase type +:+ " Emergency"));
         Field "description"
           (VStr (if silent then "Silent emergency alert" else "Emergency SOS activated"));
         Field "location" (VObj location);
         Field "serviceNumber" (VStr serviceNumber);
         Field "isSilent" (VBool silent);
         Field "reporterId" (VStr currentUserId)])
  end.

Definition handleEmergencySOS (type serviceNumber : string) :=
  emergencySOS type serviceNumber None.

Definition handleSilentSOS := emergencySOS "police" "191" (Some true).

End CitizenInterface.

(* ===================================================================== *)
(** ** Concrete stores, requests and server states *)
(* ===================================================================== *)

(** Inputs on which the properties below are run. *)
Module Sample.
Import JS Server.

(** The in-memory store as the constructor leaves it. *)
Definition sample_store : MemStorage.store :=
  MemStorage.constructor "u-0" "e-1" "e-2" "e-3" 1000 1001 1002 1003.

(** A report whose sender also tries to set the status. *)
Definition sample_report : obj :=
  literal [Field "type" (VStr "fire"); Field "priority" (VStr "high");
           Field "title" (VStr "FIRE Emergency");
           Field "status" (VStr "resolved");
           Field "serviceNumber" (VStr "192"); Field "reporterId" (VStr "u-7")].

Definition sample_store_1 : MemStorage.store :=
  (MemStorage.createIncident "i-1" 2000 2000 sample_report sample_store).1.

Definition chat (incidentId text : string) : obj :=
  literal [Field "incidentId" (VStr incidentId); Field "message" (VStr text);
           Field "senderId" (VStr "u-7")].

(** Three messages, two of incident [i-1], stored with clock readings
    that are not in storage order. *)
Definition sample_store_2 : MemStorage.store :=
  (MemStorage.createChatMessage "m-3" 2000 (chat "i-1" "fire at the market")
     (MemStorage.createChatMessage "m-2" 2500 (chat "i-2" "road blocked")
        (MemStorage.createChatMessage "m-1" 3000 (chat "i-1" "unit on its way")
           sample_store_1).1).1).1.

(** A server with an empty database, an open and a closed socket, a clock
    that advances by one per reading and push keys [k0], [k1], ... *)
Definition sample_world : world :=
  World (Database ∅ ∅ ∅ ∅) [Socket OPEN []; Socket CLOSED []; Socket OPEN []]
        (λ n, 1000 + Z.of_nat n)%Z 0 (λ n, "k" +:+ pretty n) 0.

Definition sample_incident : obj :=
  literal
    [Field "serviceId" (VStr "fire"); Field "type" (VStr "fire");
     Field "category" (VStr "fire"); Field "title" (VStr "FIRE Emergency");
     Field "serviceNumber" (VStr "192"); Field "status" (VStr "closed");
     Field "location"
       (VObj (literal [Field "latitude" (VNum (56037 # 10000));
                       Field "longitude" (VNum (-1870 # 10000));
                       Field "address" (VStr "Accra, Greater Accra Region")]))].

Definition sample_incident_body : val := VObj sample_incident.

(** The same report with the latitude sent as a string. *)
Definition sample_incident_bad_latitude : val :=
  VObj (<["location" :=
            VObj (literal [Field "latitude" (VStr "5.6037");
                           Field "longitude" (VNum (-1870 # 10000));
                           Field "address" (VStr "Accra, Greater Accra Region")])]>
          sample_incident).

(** The server after that incident has been reported; it is stored under
    [k0]. *)
Definition sample_world_1 : world :=
  (Routes.post_incident sample_incident_body sample_world).2.

(** The property [k] of the incident stored under [id]. *)
Definition incident_prop (w : world) (id k : string) : option val :=
  incidents (db w) !! id ≫= (.!! k).

Definition status_body (s : string) : val :=
  VObj (literal [Field "status" (VStr s)]).

Definition assign_body (responderId : string) : val :=
  VObj (literal [Field "responderId" (VStr responderId)]).

Definition chat_frame : obj :=
  literal [Field "type" (VStr "chat_message"); Field "incidentId" (VStr "k0");
           Field "content" (VStr "help"); Field "senderId" (VStr "u-7")].

(** The incidents and the units that a dispatcher console has fetched. *)
Definition sample_fire : obj :=
  literal [Field "id" (VStr "i-1"); Field "type" (VStr "fire");
           Field "status" (VStr "new")].

Definition sample_resolved : obj :=
  literal [Field "id" (VStr "i-2"); Field "type" (VStr "police");
           Field "status" (VStr "resolved")].

Definition sample_incidents : list obj :=
  [sample_fire; sample_resolved;
   literal [Field "id" (VStr "i-3"); Field "type" (VStr "ambulance");
            Field "status" (VStr "assigned")]].

Definition sample_units : list obj :=
  [literal [Field "id" (VStr "e-1"); Field "unitType" (VStr "fire");
            Field "status" (VStr "busy")];
   literal [Field "id" (VStr "e-2"); Field "unitType" (VStr "police");
            Field "status" (VStr "available")];
   literal [Field "id" (VStr "e-3"); Field "unitType" (VStr "unified");
            Field "status" (VStr "available")];
   literal [Field "id" (VStr "e-4"); Field "unitType" (VStr "fire");
            Field "status" (VStr "available")]].



(** The same frame without its [content]. *)
Definition chat_frame_without_content : obj :=
  literal [Field "type" (VStr "chat_message"); Field "incidentId" (VStr "k0");
           Field "senderId" (VStr "u-7")].

(** A user as the registration sends it, the store after it has been
    created under [u-9], and a unit to add. *)
Definition sample_user : obj :=
  literal [Field "phoneNumber" (VStr "+233200000009"); Field "name" (VStr "Kofi")].

Definition sample_store_3 : MemStorage.store :=
  (MemStorage.createUser "u-9" 5000 sample_user sample_store).1.

Definition sample_unit : obj :=
  literal [Field "name" (VStr "Fire Tender 7"); Field "unitType" (VStr "fire")].

(** The documents of a collection in the order in which the map lists
    them. *)
Definition snapshot_values (c : gmap string obj) : list obj := (map_to_list c).*2.

(** The page after a service administrator has logged in, and a chat
    window on the incident [k0]. *)
Definition sample_admin : obj :=
  literal [Field "id" (VStr "u-3"); Field "role" (VStr "service_admin")].

Definition sample_page : Home.state :=
  Home.handle Home.RoleEffect (Home.handle (Home.Login sample_admin) Home.initial).


End Sample.

(* ===================================================================== *)
(** ** Proof automation *)
(* ===================================================================== *)

(** Looks a property up in an object literal made of [Field] parts. *)
Ltac literal_lookup :=
  unfold JS.literal; cbn [foldl JS.add_part];
  repeat first
    [ rewrite lookup_insert_eq
    | rewrite lookup_insert_ne by done
    | rewrite lookup_empty ];
  try done.

(** Runs the monadic code of the store and of the handlers on a server
    state given by its fields; call-by-value, so that the state is not
    copied. *)
Ltac run :=
  cbv beta iota zeta delta
    [FirebaseStorage.createIncident FirebaseStorage.createChatMessage
     FirebaseStorage.try_createChatMessage
     FirebaseStorage.assignIncident FirebaseStorage.createIncidentAssignment
     FirebaseStorage.updateIncidentStatus FirebaseStorage.updateIncident
     FirebaseStorage.getIncident FirebaseStorage.createAuditLog
     FirebaseStorage.generateId Routes.broadcast
     mbind mret Server.M_bind Server.M_ret Server.Date_now Server.push_key
     Server.modify_db Server.read_db Server.modify_clients
     Server.db Server.clients Server.now_at Server.ticks Server.key_at Server.pushes
     Server.with_incidents Server.with_incidentAssignments
     Server.with_chatMessages Server.with_auditLogs
     Server.incidents Server.incidentAssignments Server.chatMessages Server.auditLogs
     Server.fb_set Server.fb_update Routes.code Routes.body fst snd].

(** Looks up a property that a [Spread] part of a literal provides and no
    later [Field] overrides. *)
Ltac spread_lookup :=
  unfold JS.literal; cbn [foldl JS.add_part];
  repeat rewrite lookup_insert_ne by done;
  apply lookup_union_Some_l; literal_lookup.

(** Membership of a concrete element in a concrete list. *)
Ltac solve_elem :=
  repeat first [apply list_elem_of_here | apply list_elem_of_further].

(** Looks up, in a literal, a property that none of its [Field] parts
    names, given [Hk : k ∉ [names]]. *)
Ltac skip_fields Hk :=
  unfold JS.literal; cbn [foldl JS.add_part];
  repeat (rewrite lookup_insert_ne by (intros <-; apply Hk; solve_elem)).

(** Splits a server state into its fields. *)
Ltac split_world w :=
  destruct w as [[incs asgs chats logs] socks now tk key ps].

(* ===================================================================== *)
(** * Properties *)
(* ===================================================================== *)

Import JS.
Import Sample.

(** ** Facts about the built-in map *)

Section jsmap_facts.
Context {V : Type}.
Implicit Types (m : JSMap.t V) (k : string) (v : V).

Lemma jsmap_get_set_eq m k v : JSMap.get (JSMap.set m k v) k = Some v.
Proof.
  induction m as [|[k' v'] m IH]; simpl.
  - by rewrite String.eqb_refl.
  - destruct (String.eqb k' k) eqn:E; simpl.
    + by rewrite String.eqb_refl.
    + by rewrite E.
Qed.

Lemma jsmap_get_set_ne m k k' v :
  k ≠ k' → JSMap.get (JSMap.set m k v) k' = JSMap.get m k'.
Proof.
  intros Hne. induction m as [|[k0 v0] m IH]; simpl.
  - by apply String.eqb_neq in Hne as ->.
  - destruct (String.eqb k0 k) eqn:E; simpl.
    + apply String.eqb_eq in E as ->.
      by apply String.eqb_neq in Hne as ->.
    + by rewrite IH.
Qed.

Lemma jsmap_keys_set m k v v0 :
  JSMap.get m k = Some v0 → (JSMap.set m k v).*1 = m.*1.
Proof.
  induction m as [|[k' v'] m IH]; simpl; [done|].
  destruct (String.eqb k' k) eqn:E; simpl.
  - apply String.eqb_eq in E as ->. done.
  - intros H. f_equal. by apply IH.
Qed.

End jsmap_facts.

(** ** The in-memory store *)

(** C8.  Whatever the insert payload holds, an incident made by
    [MemStorage.createIncident] has status ['new'], a [null] assigned unit,
    a [null] assigned dispatcher and an empty media list, and this is the
    record stored under the new id. *)
Theorem createIncident_defaults (id : string) (created updated : Z)
    (incidentData : obj) (st : MemStorage.store) :
  let '(st', incident) := MemStorage.createIncident id created updated incidentData st in
  incident !! "status" = Some (VStr "new")
  ∧ incident !! "assignedUnitId" = Some VNull
  ∧ incident !! "assignedDispatcherId" = Some VNull
  ∧ incident !! "mediaUrls" = Some (VArr [])
  ∧ MemStorage.getIncident id st' = Some incident.
Proof.
  unfold MemStorage.createIncident, MemStorage.getIncident; simpl.
  repeat split; try by literal_lookup.
  apply jsmap_get_set_eq.
Qed.

Example createIncident_ignores_supplied_status :
  sample_report !! "status" = Some (VStr "resolved")
  ∧ MemStorage.getIncident "i-1" sample_store_1 ≫= (.!! "status") = Some (VStr "new").
Proof. by vm_compute. Qed.

(** C9.  On an id that is not in the corresponding map, [updateUser],
    [updateIncident] and [updateEmergencyUnit] return [undefined] and the
    store they leave is the store they were given. *)
Theorem update_missing_is_noop (id : string) (now : Z) (updates : obj)
    (st : MemStorage.store) :
  (MemStorage.getUser id st = None →
     MemStorage.updateUser id updates st = (st, None))
  ∧ (MemStorage.getIncident id st = None →
     MemStorage.updateIncident id now updates st = (st, None))
  ∧ (MemStorage.getEmergencyUnit id st = None →
     MemStorage.updateEmergencyUnit id updates st = (st, None)).
Proof.
  unfold MemStorage.getUser, MemStorage.getIncident, MemStorage.getEmergencyUnit,
    MemStorage.updateUser, MemStorage.updateIncident, MemStorage.updateEmergencyUnit.
  repeat split; intros ->; reflexivity.
Qed.

Lemma update_missing_is_noop_witness :
  let updates := literal [Field "status" (VStr "closed")] in
  MemStorage.updateUser "nobody" updates sample_store_1 = (sample_store_1, None)
  ∧ MemStorage.updateIncident "i-404" 5000 updates sample_store_1 = (sample_store_1, None)
  ∧ MemStorage.updateEmergencyUnit "e-9" updates sample_store_1 = (sample_store_1, None).
Proof.
  intros updates.
  split; [|split].
  - apply (update_missing_is_noop "nobody" 0 updates sample_store_1). reflexivity.
  - apply (update_missing_is_noop "i-404" 5000 updates sample_store_1). reflexivity.
  - apply (update_missing_is_noop "e-9" 0 updates sample_store_1). reflexivity.
Defined.

(** C10.  [MemStorage.updateIncident] on an existing incident returns and
    stores a record that agrees with the old one on every property the
    update does not name, except [updatedAt], which is the time of the
    update whatever the payload holds (also when it is empty); the record
    stays at its place in the map, every other incident is the one it was,
    and the other three maps are not touched. *)
Theorem updateIncident_frame (id : string) (now : Z) (updates incident : obj)
    (st : MemStorage.store) :
  MemStorage.getIncident id st = Some incident →
  ∃ updated,
    MemStorage.updateIncident id now updates st
      = (MemStorage.with_incidents (λ m, JSMap.set m id updated) st, Some updated)
    ∧ MemStorage.getIncident id (MemStorage.updateIncident id now updates st).1
      = Some updated
    ∧ (∀ k, updates !! k = None → k ≠ "updatedAt" → updated !! k = incident !! k)
    ∧ updated !! "updatedAt" = Some (VDate now)
    ∧ (∀ id', id' ≠ id →
         MemStorage.getIncident id' (MemStorage.updateIncident id now updates st).1
         = MemStorage.getIncident id' st)
    ∧ (MemStorage.incidents (MemStorage.updateIncident id now updates st).1).*1
      = (MemStorage.incidents st).*1
    ∧ MemStorage.users (MemStorage.updateIncident id now updates st).1
      = MemStorage.users st
    ∧ MemStorage.chatMessages (MemStorage.updateIncident id now updates st).1
      = MemStorage.chatMessages st
    ∧ MemStorage.emergencyUnits (MemStorage.updateIncident id now updates st).1
      = MemStorage.emergencyUnits st.
Proof.
  unfold MemStorage.getIncident, MemStorage.updateIncident. intros Hget.
  rewrite Hget. eexists. split; [reflexivity|]. simpl.
  split; [apply jsmap_get_set_eq|].
  split.
  { intros k Hk Hne. unfold literal; cbn [foldl add_part].
    rewrite lookup_insert_ne by done.
    rewrite lookup_union_r by done.
    by rewrite lookup_union_l by apply lookup_empty. }
  split; [by literal_lookup|].
  split; [intros id' Hne; by apply jsmap_get_set_ne|].
  split; [by eapply jsmap_keys_set|done].
Qed.

Lemma updateIncident_frame_witness :
  ∃ updated,
    MemStorage.updateIncident "i-1" 9000 ∅ sample_store_1
      = (MemStorage.with_incidents (λ m, JSMap.set m "i-1" updated) sample_store_1,
         Some updated)
    ∧ updated !! "title" = Some (VStr "FIRE Emergency")
    ∧ updated !! "updatedAt" = Some (VDate 9000).
Proof.
  destruct (updateIncident_frame "i-1" 9000 ∅
              (MemStorage.createIncident "i-1" 2000 2000 sample_report sample_store).2
              sample_store_1 eq_refl)
    as (updated & Hrun & _ & Hframe & Hat & _).
  exists updated. split; [exact Hrun|]. split; [|exact Hat].
  rewrite Hframe; [reflexivity | reflexivity | discriminate].
Defined.

(** ** Facts about [sort] *)

Section sort_facts.
Context {A : Type} (cmp : A → A → Z) (key : A → Z) (D : A → Prop).
Hypothesis cmp_key : ∀ a b, D a → D b → cmp a b = (key a - key b)%Z.

Let le (a b : A) : Prop := (key a ≤ key b)%Z.

Lemma insert_sorted_perm x l : Permutation (insert_sorted cmp x l) (x :: l).
Proof.
  induction l as [|y l IH]; simpl; [done|].
  destruct (0 <? cmp y x)%Z; [done|].
  rewrite IH. apply perm_swap.
Qed.

Lemma sort_acc_perm l acc :
  Permutation (foldl (λ acc x, insert_sorted cmp x acc) acc l) (acc ++ l).
Proof.
  revert acc. induction l as [|x l IH]; intros acc; simpl.
  - by rewrite app_nil_r.
  - rewrite IH, insert_sorted_perm. simpl. apply Permutation_middle.
Qed.

Lemma sort_perm l : Permutation (sort cmp l) l.
Proof. unfold sort. by rewrite sort_acc_perm. Qed.

Lemma insert_sorted_sorted x l :
  D x → Forall D l → StronglySorted le l →
  StronglySorted le (insert_sorted cmp x l).
Proof.
  intros Hx Hl Hs. induction Hs as [|y l Hs IH Hy]; simpl.
  - repeat constructor.
  - apply Forall_cons in Hl as [Hdy Hl].
    destruct (0 <? cmp y x)%Z eqn:E.
    + apply Z.ltb_lt in E. rewrite cmp_key in E by done.
      constructor; [by constructor|].
      constructor; [unfold le; lia|].
      eapply Forall_impl; [exact Hy|]. unfold le. intros z Hz. simpl in Hz. lia.
    + apply Z.ltb_ge in E. rewrite cmp_key in E by done.
      constructor; [by apply IH|].
      rewrite insert_sorted_perm. constructor; [unfold le; lia|done].
Qed.

Lemma sort_sorted l : Forall D l → StronglySorted le (sort cmp l).
Proof.
  unfold sort. intros Hl.
  assert (H : ∀ acc, Forall D acc → StronglySorted le acc →
              StronglySorted le (foldl (λ acc x, insert_sorted cmp x acc) acc l)).
  { induction Hl as [|x l Hx Hl IH]; intros acc Hacc Hs; simpl; [done|].
    apply IH.
    - rewrite insert_sorted_perm. by constructor.
    - by apply insert_sorted_sorted. }
  apply H; constructor.
Qed.

End sort_facts.

(** ** Chat messages of the in-memory store *)



(** ** Facts about object schemas *)

Import Zod.

Lemma get_defined (o : obj) k v : get o k = v → v ≠ VUndef → o !! k = Some v.
Proof.
  unfold get. destruct (o !! k); simpl; [by intros ->|by intros <-].
Qed.

Lemma parse_object o shape :
  parse (ZObject shape) (VObj o) = VObj <$> parse_shape parse o shape.
Proof. reflexivity. Qed.

Lemma parse_shape_cons o k sk sh :
  parse_shape parse o ((k, sk) :: sh)
  = match parse sk (get o k), parse_shape parse o sh with
    | Some r, Some out =>
        Some (if bool_decide (is_Some (o !! k)) || negb (is_undef r)
              then <[k := r]> out else out)
    | _, _ => None
    end.
Proof. reflexivity. Qed.

(** The output holds the parsed value of every key of the shape that was
    present or is defined, and nothing else. *)
Lemma parse_shape_lookup o sh out :
  parse_shape parse o sh = Some out → NoDup sh.*1 →
  (∀ k sk, (k, sk) ∈ sh →
     ∃ r, parse sk (get o k) = Some r
          ∧ out !! k = (if bool_decide (is_Some (o !! k)) || negb (is_undef r)
                        then Some r else None))
  ∧ (∀ k, k ∉ sh.*1 → out !! k = None).
Proof.
  revert out. induction sh as [|[k0 s0] sh IH]; intros out Hp Hnd.
  - injection Hp as <-. split; [intros k sk Hin; by apply elem_of_nil in Hin|done].
  - rewrite parse_shape_cons in Hp.
    destruct (parse s0 (get o k0)) as [r0|] eqn:E0; [|done].
    destruct (parse_shape parse o sh) as [out'|] eqn:E'; [|done].
    injection Hp as <-.
    apply NoDup_cons in Hnd as [Hk0 Hnd].
    destruct (IH out' eq_refl Hnd) as [IH1 IH2].
    split.
    + intros k sk Hin. apply elem_of_cons in Hin as [Heq|Hin].
      * injection Heq as -> ->. exists r0. split; [done|].
        destruct (bool_decide (is_Some (o !! k0)) || negb (is_undef r0)).
        -- apply lookup_insert_eq.
        -- by apply IH2.
      * destruct (IH1 k sk Hin) as (r & Hr & Hout). exists r. split; [done|].
        assert (k0 ≠ k) as Hne.
        { intros ->. apply Hk0. apply list_elem_of_fmap. by exists (k, sk). }
        destruct (bool_decide (is_Some (o !! k0)) || negb (is_undef r0));
          [by rewrite lookup_insert_ne|done].
    + intros k Hk. simpl in Hk. apply not_elem_of_cons in Hk as [Hne Hk].
      destruct (bool_decide (is_Some (o !! k0)) || negb (is_undef r0));
        [rewrite lookup_insert_ne by done|]; by apply IH2.
Qed.

Lemma parse_ZString_inv v r : parse ZString v = Some r → ∃ s, v = VStr s ∧ r = v.
Proof. destruct v; simpl; try done. intros [= <-]. eauto. Qed.

Lemma parse_ZNumber_inv v r : parse ZNumber v = Some r → ∃ q, v = VNum q ∧ r = v.
Proof. destruct v; simpl; try done. intros [= <-]. eauto. Qed.

Lemma parse_object_inv shape v r :
  parse (ZObject shape) v = Some r →
  ∃ o out, v = VObj o ∧ r = VObj out ∧ parse_shape parse o shape = Some out.
Proof.
  destruct v; simpl; try done.
  destruct (parse_shape parse o shape) as [out|] eqn:E; simpl; [|done].
  intros [= <-]. eauto.
Qed.

Lemma is_str_true v s : is_str v s = true ↔ v = VStr s.
Proof.
  destruct v; simpl; try (split; [done|discriminate]).
  rewrite String.eqb_eq. split; [by intros ->|by intros [= ->]].
Qed.

Lemma StronglySorted_strengthen {A : Type} (R1 R2 : A → A → Prop) (D : A → Prop) l :
  (∀ a b, D a → D b → R1 a b → R2 a b) →
  Forall D l → StronglySorted R1 l → StronglySorted R2 l.
Proof.
  intros HR Hl Hs. induction Hs as [|x l Hs IH Hx]; [constructor|].
  apply Forall_cons in Hl as [Hdx Hl]. constructor; [by apply IH|].
  rewrite Forall_forall in *. intros y Hy. apply HR; auto.
Qed.

Import Schema Server Routes.



(** ** Creating an incident through the route *)

Lemma incidentRequestSchema_shape :
  incidentRequestSchema
  = ZObject [ ("serviceId", ZString); ("type", ZString); ("category", ZString);
              ("priority",
                 ZDefault (ZEnum ["low"; "medium"; "high"; "critical"]) (VStr "medium"));
              ("title", ZString); ("description", ZOptional ZString);
              ("location", locationSchema); ("serviceNumber", ZString);
              ("isSilent", ZDefault ZBoolean (VBool false));
              ("isOffline", ZDefault ZBoolean (VBool false));
              ("reporterId", ZOptional ZString) ].
Proof. reflexivity. Qed.

Lemma incidentRequestSchema_keys :
  NoDup ["serviceId"; "type"; "category"; "priority"; "title"; "description";
         "location"; "serviceNumber"; "isSilent"; "isOffline"; "reporterId"].
Proof. apply (bool_decide_unpack _). by vm_compute. Qed.

Lemma locationSchema_keys : NoDup ["latitude"; "longitude"; "address"; "ghanaPostGPS"].
Proof. apply (bool_decide_unpack _). by vm_compute. Qed.

(** A key of a shape that is parsed as a string is a string property of
    the input. *)
Lemma shape_string_key o sh out k :
  parse_shape parse o sh = Some out → NoDup sh.*1 → (k, ZString) ∈ sh →
  ∃ s, o !! k = Some (VStr s).
Proof.
  intros Hp Hnd Hin.
  destruct (parse_shape_lookup _ _ _ Hp Hnd) as [Hl _].
  destruct (Hl _ _ Hin) as (r & Hr & _).
  apply parse_ZString_inv in Hr as (s & Hs & _).
  exists s. by apply get_defined.
Qed.

Lemma shape_number_key o sh out k :
  parse_shape parse o sh = Some out → NoDup sh.*1 → (k, ZNumber) ∈ sh →
  ∃ q, o !! k = Some (VNum q).
Proof.
  intros Hp Hnd Hin.
  destruct (parse_shape_lookup _ _ _ Hp Hnd) as [Hl _].
  destruct (Hl _ _ Hin) as (r & Hr & _).
  apply parse_ZNumber_inv in Hr as (s & Hs & _).
  exists s. by apply get_defined.
Qed.

Lemma parsed_optional_string o sh out k :
  parse_shape parse o sh = Some out → NoDup sh.*1 → (k, ZOptional ZString) ∈ sh →
  get out k = get o k.
Proof.
  intros Hp Hnd Hin.
  destruct (parse_shape_lookup _ _ _ Hp Hnd) as [Hl _].
  destruct (Hl _ _ Hin) as (r & Hr & Hout).
  unfold get at 1. rewrite Hout. unfold get in *.
  destruct (o !! k) as [v|]; cbn [default] in *.
  - destruct v; cbn in Hr; try done; injection Hr as <-; done.
  - injection Hr as <-. done.
Qed.

Lemma parsed_default o sh out k inner d r :
  parse_shape parse o sh = Some out → NoDup sh.*1 → (k, ZDefault inner d) ∈ sh →
  o !! k = None → parse inner d = Some r → r ≠ VUndef → out !! k = Some r.
Proof.
  intros Hp Hnd Hin Hnone Hd Hdef.
  destruct (parse_shape_lookup _ _ _ Hp Hnd) as [Hl _].
  destruct (Hl _ _ Hin) as (r' & Hr & Hout).
  unfold get in Hr. rewrite Hnone in Hr. cbn in Hr. rewrite Hd in Hr.
  injection Hr as <-. rewrite Hout.
  destruct r; cbn [is_undef negb]; rewrite ?orb_true_r; done.
Qed.

Lemma parsed_string o sh out k :
  parse_shape parse o sh = Some out → NoDup sh.*1 → (k, ZString) ∈ sh →
  out !! k = o !! k.
Proof.
  intros Hp Hnd Hin.
  destruct (parse_shape_lookup _ _ _ Hp Hnd) as [Hl _].
  destruct (Hl _ _ Hin) as (r & Hr & Hout).
  apply parse_ZString_inv in Hr as (s & Hs & ->).
  rewrite Hout, Hs. cbn. rewrite orb_true_r. symmetry. by apply get_defined.
Qed.

Lemma includes_true (l : list string) (v : val) :
  includes l v = true ↔ ∃ s, s ∈ l ∧ v = VStr s.
Proof.
  unfold includes. rewrite existsb_exists.
  split; intros (s & Hin & Hs); exists s.
  - split; [by apply list_elem_of_In|by apply is_str_true].
  - split; [by apply list_elem_of_In|by apply is_str_true].
Qed.

(** A parsed value that is defined is a property of the output. *)
Lemma parsed_kept o sh out k sk r :
  parse_shape parse o sh = Some out → NoDup sh.*1 → (k, sk) ∈ sh →
  parse sk (get o k) = Some r → r ≠ VUndef → out !! k = Some r.
Proof.
  intros Hp Hnd Hin Hr Hdef.
  destruct (parse_shape_lookup _ _ _ Hp Hnd) as [Hl _].
  destruct (Hl _ _ Hin) as (r' & Hr' & Hout).
  rewrite Hr in Hr'. injection Hr' as <-. rewrite Hout.
  destruct r; cbn [is_undef negb]; rewrite ?orb_true_r; done.
Qed.

(** An object passes a shape exactly when each key passes its schema. *)
Lemma parse_shape_is_Some o sh :
  is_Some (parse_shape parse o sh)
  ↔ Forall (λ ks, is_Some (parse ks.2 (get o ks.1))) sh.
Proof.
  induction sh as [|[k sk] sh IH].
  - split; [constructor|by eexists].
  - rewrite parse_shape_cons, Forall_cons, <- IH. cbn [fst snd].
    destruct (parse sk (get o k)) as [r|], (parse_shape parse o sh) as [out|];
      split; try (intros [? [=]]; fail); try (intros [[? [=]] _]; fail);
      try (intros [_ [? [=]]]; fail); intros _; try split; by eexists.
Qed.

Lemma parse_typed_string v : is_Some (parse ZString v) ↔ typed_string v = true.
Proof. destruct v; cbn; split; try done; try (intros [? [=]]; fail); by eexists. Qed.

Lemma parse_typed_number v : is_Some (parse ZNumber v) ↔ typed_number v = true.
Proof. destruct v; cbn; split; try done; try (intros [? [=]]; fail); by eexists. Qed.

Lemma parse_optional_string v :
  is_Some (parse (ZOptional ZString) v) ↔ optional typed_string v = true.
Proof. destruct v; cbn; split; try done; try (intros [? [=]]; fail); by eexists. Qed.

Lemma parse_default_boolean v :
  is_Some (parse (ZDefault ZBoolean (VBool false)) v) ↔ optional typed_boolean v = true.
Proof. destruct v; cbn; split; try done; try (intros [? [=]]; fail); by eexists. Qed.

Lemma parse_default_priority v :
  is_Some (parse (ZDefault (ZEnum ["low"; "medium"; "high"; "critical"]) (VStr "medium")) v)
  ↔ optional (includes ["low"; "medium"; "high"; "critical"]) v = true.
Proof.
  destruct v as [| |b|q|s|t|l|o]; cbn [parse optional is_undef orb];
    try (split; [intros [? [=]]|intros Hin; apply includes_true in Hin as (? & _ & [=])]; fail).
  - split; [done|]. intros _. by eexists.
  - rewrite includes_true. case_bool_decide as Hs.
    + split; [|by eexists]. intros _. by exists s.
    + split; [intros [? [=]]|]. intros (s' & Hin & [= ->]). done.
Qed.

Lemma parse_valid_location v :
  is_Some (parse locationSchema v) ↔ valid_location v = true.
Proof.
  destruct v as [| |b|q|s|t|l|loc]; try (split; [intros [? [=]]|done]; fail).
  unfold locationSchema, valid_location. rewrite parse_object.
  rewrite fmap_is_Some, parse_shape_is_Some, !Forall_cons, Forall_nil. cbn [fst snd].
  rewrite !parse_typed_number, parse_typed_string, parse_optional_string,
    !andb_true_iff. tauto.
Qed.

(** The bodies that pass the request schema are the valid ones. *)
Lemma parse_valid_incident_body (reqBody : val) :
  is_Some (parse incidentRequestSchema reqBody) ↔ valid_incident_body reqBody = true.
Proof.
  rewrite incidentRequestSchema_shape.
  destruct reqBody as [| |b|q|s|t|l|o]; try (split; [intros [? [=]]|done]; fail).
  unfold valid_incident_body. rewrite parse_object.
  rewrite fmap_is_Some, parse_shape_is_Some, !Forall_cons, Forall_nil. cbn [fst snd].
  rewrite !parse_typed_string, !parse_optional_string, !parse_default_boolean,
    parse_default_priority, parse_valid_location, !andb_true_iff. tauto.
Qed.

(** C5.  [POST /api/incidents] takes exactly the valid bodies: objects
    with a [location] object that has a numeric [latitude], a numeric
    [longitude] and a string [address], with string [serviceId], [type],
    [category], [title] and [serviceNumber], and with the other properties
    of the schema missing or of their type.  On every other body the route
    answers 400 ['Invalid incident data'] and leaves the server as it was.
    On a valid body it answers 201 with the incident it has made: the five
    strings and the location of the report, the new key as [id] and the
    status ['new']; and it stores this incident under the new key, apart
    from its two empty containers, which the database does not keep. *)
Theorem post_incident_validates (reqBody : val) (w : world) :
  (valid_incident_body reqBody = false →
   post_incident reqBody w
   = (Response 400 (error_body "Invalid incident data"), w))
  ∧ (valid_incident_body reqBody = true →
     ∃ o loc lat lng address incident location stored,
       reqBody = VObj o
       ∧ o !! "location" = Some (VObj loc)
       ∧ loc !! "latitude" = Some (VNum lat)
       ∧ loc !! "longitude" = Some (VNum lng)
       ∧ loc !! "address" = Some (VStr address)
       ∧ (post_incident reqBody w).1 = Response 201 (VObj incident)
       ∧ incident !! "id" = Some (VStr (key_at w (pushes w)))
       ∧ incident !! "status" = Some (VStr "new")
       ∧ (∀ k, k ∈ ["serviceId"; "type"; "category"; "title"; "serviceNumber"] →
            ∃ s, o !! k = Some (VStr s) ∧ incident !! k = Some (VStr s))
       ∧ incident !! "location" = Some (VObj location)
       ∧ location !! "latitude" = Some (VNum lat)
       ∧ location !! "longitude" = Some (VNum lng)
       ∧ location !! "address" = Some (VStr address)
       ∧ get location "ghanaPostGPS" = get loc "ghanaPostGPS"
       ∧ incidents (db (post_incident reqBody w).2)
         = <[key_at w (pushes w) := stored]> (incidents (db w))
       ∧ (∀ k, k ∉ ["mediaUrls"; "metadata"] → stored !! k = incident !! k)
       ∧ incidentAssignments (db (post_incident reqBody w).2) = incidentAssignments (db w)
       ∧ chatMessages (db (post_incident reqBody w).2) = chatMessages (db w)
       ∧ clients (post_incident reqBody w).2 = clients w).
Proof.
  split.
  - intros Hinvalid. unfold post_incident.
    destruct (parse incidentRequestSchema reqBody) as [r|] eqn:Hparse; [|done].
    assert (valid_incident_body reqBody = true) as Hvalid
      by (apply parse_valid_incident_body; by eexists).
    by rewrite Hvalid in Hinvalid.
  - intros [r Hparse]%parse_valid_incident_body.
    pose proof Hparse as Hp. rewrite incidentRequestSchema_shape in Hp.
    apply parse_object_inv in Hp as (o & out & -> & -> & Hshape).
    destruct (parse_shape_lookup _ _ _ Hshape incidentRequestSchema_keys) as [Hl Hstrip].
    destruct (Hl "location" locationSchema) as (rl & Hrl & _); [solve_elem|].
    pose proof Hrl as Hrl'.
    apply parse_object_inv in Hrl' as (loc & lout & Hloc & -> & Hlshape).
    apply get_defined in Hloc; [|done].
    destruct (shape_number_key _ _ _ "latitude" Hlshape locationSchema_keys)
      as [lat Hlat]; [solve_elem|].
    destruct (shape_number_key _ _ _ "longitude" Hlshape locationSchema_keys)
      as [lng Hlng]; [solve_elem|].
    destruct (shape_string_key _ _ _ "address" Hlshape locationSchema_keys)
      as [address Haddr]; [solve_elem|].
    assert (out !! "location" = Some (VObj lout)) as Hout
      by (apply (parsed_kept o _ out "location" locationSchema (VObj lout)
                   Hshape incidentRequestSchema_keys); [solve_elem|done|done]).
    assert (out !! "id" = None) as Hid
      by (apply Hstrip, (bool_decide_unpack _); by vm_compute).
    unfold post_incident. rewrite Hparse. split_world w. run.
    assert (∀ k v, out !! k = Some v →
              k ∉ ["status"; "mediaUrls"; "metadata"; "createdAt"; "updatedAt"] →
              literal [Field "id" (VStr (key ps)); Spread out;
                       Field "status" (VStr "new"); Field "mediaUrls" (VArr []);
                       Field "metadata" (VObj ∅); Field "createdAt" (VTime (now tk));
                       Field "updatedAt" (VTime (now (S tk)))] !! k = Some v) as Hkept.
    { intros k v Hv Hk. skip_fields Hk. by apply lookup_union_Some_l. }
    exists o, loc, lat, lng, address. eexists _, lout, _.
    split; [done|]. split; [done|]. split; [done|]. split; [done|]. split; [done|].
    split; [reflexivity|].
    split.
    { unfold literal; cbn [foldl add_part]. repeat rewrite lookup_insert_ne by done.
      rewrite lookup_union_r by done. apply lookup_insert_eq. }
    split; [by literal_lookup|].
    split.
    { intros k Hk.
      assert ((k, ZString) ∈ [("serviceId", ZString); ("type", ZString);
                ("category", ZString);
                ("priority",
                   ZDefault (ZEnum ["low"; "medium"; "high"; "critical"]) (VStr "medium"));
                ("title", ZString); ("description", ZOptional ZString);
                ("location", locationSchema); ("serviceNumber", ZString);
                ("isSilent", ZDefault ZBoolean (VBool false));
                ("isOffline", ZDefault ZBoolean (VBool false));
                ("reporterId", ZOptional ZString)]) as Hin.
      { repeat (apply elem_of_cons in Hk as [->|Hk]; [solve_elem|]).
        by apply elem_of_nil in Hk. }
      destruct (shape_string_key _ _ _ k Hshape incidentRequestSchema_keys Hin) as [s Hs].
      exists s. split; [done|]. apply Hkept.
      - by rewrite (parsed_string _ _ _ k Hshape incidentRequestSchema_keys Hin).
      - repeat (apply elem_of_cons in Hk as [->|Hk];
                [apply (bool_decide_unpack _); by vm_compute|]).
        by apply elem_of_nil in Hk. }
    split; [apply Hkept; [done|apply (bool_decide_unpack _); by vm_compute]|].
    split.
    { apply (parsed_kept loc _ lout "latitude" ZNumber (VNum lat)
               Hlshape locationSchema_keys);
        [solve_elem|unfold get; by rewrite Hlat|done]. }
    split.
    { apply (parsed_kept loc _ lout "longitude" ZNumber (VNum lng)
               Hlshape locationSchema_keys);
        [solve_elem|unfold get; by rewrite Hlng|done]. }
    split.
    { apply (parsed_kept loc _ lout "address" ZString (VStr address)
               Hlshape locationSchema_keys);
        [solve_elem|unfold get; by rewrite Haddr|done]. }
    split.
    { apply (parsed_optional_string loc _ lout "ghanaPostGPS" Hlshape locationSchema_keys).
      solve_elem. }
    split; [reflexivity|]. split; [done|]. done.
Qed.

Lemma post_incident_validates_witness :
  (∃ incident location,
     (post_incident sample_incident_body sample_world).1 = Response 201 (VObj incident)
     ∧ incident !! "title" = Some (VStr "FIRE Emergency")
     ∧ incident !! "location" = Some (VObj location)
     ∧ location !! "address" = Some (VStr "Accra, Greater Accra Region"))
  ∧ post_incident sample_incident_bad_latitude sample_world
    = (Response 400 (error_body "Invalid incident data"), sample_world).
Proof.
  split.
  - destruct (proj2 (post_incident_validates sample_incident_body sample_world) eq_refl)
      as (o & loc & lat & lng & address & incident & location & stored & [= <-] & Hloc
          & _ & _ & Haddr & Hrun & _ & _ & Hstrings & Hlocation & _ & _ & Haddress & _).
    exists incident, location. split; [exact Hrun|].
    split.
    { destruct (Hstrings "title") as (s & Hs & Htitle); [solve_elem|].
      rewrite Htitle. rewrite <- Hs. reflexivity. }
    split; [exact Hlocation|].
    rewrite Haddress. rewrite <- Haddr.
    injection Hloc as <-. reflexivity.
  - apply (proj1 (post_incident_validates sample_incident_bad_latitude sample_world)).
    reflexivity.
Defined.

Example post_incident_runs :
  (post_incident sample_incident_body sample_world).1.(code) = 201
  ∧ incident_prop sample_world_1 "k0" "status" = Some (VStr "new")
  ∧ post_incident (VObj (delete "location" sample_incident)) sample_world
    = (Response 400 (error_body "Invalid incident data"), sample_world)
  ∧ post_incident sample_incident_bad_latitude sample_world
    = (Response 400 (error_body "Invalid incident data"), sample_world)
  ∧ post_incident VUndef sample_world
    = (Response 400 (error_body "Invalid incident data"), sample_world).
Proof. by vm_compute. Qed.

(** ** Status updates *)

Lemma body_prop_obj (o : obj) k : body_prop (VObj o) k = get o k.
Proof. reflexivity. Qed.

Lemma truthy_VStr s : s ≠ "" → truthy (VStr s) = true.
Proof. intros Hs. simpl. by apply String.eqb_neq in Hs as ->. Qed.

Lemma get_lookup (o : obj) k v : o !! k = Some v → get o k = v.
Proof. unfold get. by intros ->. Qed.



(** ** Assignment *)




(** ** The WebSocket fan-out *)

(** A frame that does not decode, or decodes to something that is not an
    object of type ['chat_message'], changes nothing. *)
Lemma on_message_ignores (data : option val) (w : world) :
  (∀ message, data = Some (VObj message) →
              get message "type" ≠ VStr "chat_message") →
  on_message data w = (tt, w).
Proof.
  intros Hother. unfold on_message, prop.
  destruct data as [message|]; [|done].
  destruct message as [| |b|q|s|t|l|o]; try done.
  cbn [nullish].
  destruct (is_str (get o "type") "chat_message") eqn:E; [|done].
  apply is_str_true in E. by destruct (Hother o eq_refl).
Qed.

(** What the SDK's check says of an object. *)
Lemma accepts_obj (o : obj) :
  accepts (VObj o) = true
  ↔ map_Forall (λ k v, valid_key k = true ∧ accepts v = true) o.
Proof.
  change (accepts (VObj o))
    with (map_fold (λ k v' ok, valid_key k && accepts v' && ok) true o).
  apply (map_fold_weak_ind
           (λ r m, r = true
                   ↔ map_Forall (λ k v, valid_key k = true ∧ accepts v = true) m)).
  - split; [intros _; apply map_Forall_empty|done].
  - intros k v m r Hk IH.
    rewrite (map_Forall_insert _ _ _ _ Hk), !andb_true_iff, IH. tauto.
Qed.

Lemma accepts_scalar (v : val) : scalar v = true → accepts v = true.
Proof. by destruct v. Qed.

Lemma scalar_defined (v : val) : scalar v = true → v ≠ VUndef.
Proof. by destruct v. Qed.

(** The document of a chat message made from a frame is taken exactly
    when the three values from the frame are. *)
Lemma accepts_chat_document (id : string) (now : Z) (incidentId content senderId : val) :
  accepts (VObj (literal [Field "id" (VStr id);
                          Spread (literal [Field "incidentId" incidentId;
                                           Field "message" content;
                                           Field "messageType" (VStr "text")]);
                          Field "senderId" senderId;
                          Field "isRead" (VBool false); Field "metadata" (VObj ∅);
                          Field "createdAt" (VTime now)]))
  = accepts incidentId && accepts content && accepts senderId.
Proof.
  apply eq_true_iff_eq. rewrite accepts_obj, !andb_true_iff, map_Forall_lookup.
  split.
  - intros Hall. repeat split.
    + apply (Hall "incidentId" incidentId). by spread_lookup.
    + apply (Hall "message" content). by spread_lookup.
    + apply (Hall "senderId" senderId). by literal_lookup.
  - intros [[Hi Hc] Hs] k v Hkv.
    unfold literal in Hkv; cbn [foldl add_part] in Hkv.
    repeat (apply lookup_insert_Some in Hkv as [[<- <-]|[_ Hkv]]; [by split|]).
    apply lookup_union_Some_raw in Hkv as [Hkv|[_ Hkv]].
    + repeat (apply lookup_insert_Some in Hkv as [[<- <-]|[_ Hkv]]; [by split|]).
      by rewrite lookup_empty in Hkv.
    + repeat (apply lookup_insert_Some in Hkv as [[<- <-]|[_ Hkv]]; [by split|]).
      by rewrite lookup_empty in Hkv.
Qed.

(** The handler on a frame of type ['chat_message'], by whether the
    database takes the message. *)
Lemma on_message_chat (message : obj) (w : world) :
  message !! "type" = Some (VStr "chat_message") →
  let chatMessage :=
    literal [Field "id" (VStr (key_at w (pushes w)));
             Spread (literal [Field "incidentId" (get message "incidentId");
                              Field "message" (get message "content");
                              Field "messageType" (VStr "text")]);
             Field "senderId" (get message "senderId");
             Field "isRead" (VBool false); Field "metadata" (VObj ∅);
             Field "createdAt" (VTime (now_at w (ticks w)))] in
  on_message (Some (VObj message)) w
  = if accepts (get message "incidentId") && accepts (get message "content")
       && accepts (get message "senderId")
    then (tt, World (with_chatMessages (λ c, <[key_at w (pushes w) := chatMessage]> c)
                       (db w))
                    (map (λ c, if is_open (state c)
                               then send (VObj (literal [Field "type" (VStr "new_message");
                                                         Field "message" (VObj chatMessage)]))
                                         c
                               else c)
                         (clients w))
                    (now_at w) (S (ticks w)) (key_at w) (S (pushes w)))
    else (tt, World (db w) (clients w) (now_at w) (S (ticks w)) (key_at w) (S (pushes w))).
Proof.
  intros Htype chatMessage. unfold on_message, prop. cbn [nullish].
  rewrite (get_lookup _ _ _ Htype).
  cbn [is_str String.eqb Ascii.eqb Bool.eqb]. rewrite !body_prop_obj.
  unfold FirebaseStorage.try_createChatMessage. subst chatMessage.
  split_world w. run. rewrite accepts_chat_document.
  by destruct (accepts (get message "incidentId") && accepts (get message "content")
               && accepts (get message "senderId")).
Qed.


(** ** The login form *)

(** C6.  With a non-empty phone number and a non-empty name the submit
    handler always schedules [onLogin] after the fixed delay of 1000 ms,
    and the user it passes is made of the form inputs (the role as
    selected), two constants and the clock; the handler has no other
    input. *)
Theorem login_always_succeeds (f : SimpleAuthLogin.form) (t_id t_created t_updated : Z) :
  SimpleAuthLogin.phoneNumber f ≠ "" → SimpleAuthLogin.name f ≠ "" →
  ∃ user,
    SimpleAuthLogin.handleSubmit f t_id t_created t_updated
      = SimpleAuthLogin.LoginAfter 1000 user
    ∧ user !! "phoneNumber" = Some (VStr (SimpleAuthLogin.phoneNumber f))
    ∧ user !! "name" = Some (VStr (SimpleAuthLogin.name f))
    ∧ user !! "role" = Some (VStr (SimpleAuthLogin.role f))
    ∧ user !! "serviceId"
      = Some (if bool_decide (SimpleAuthLogin.role f ∈ ["responder"; "service_admin"])
              then VStr (SimpleAuthLogin.serviceId f) else VUndef)
    ∧ user !! "id" = Some (VStr (pretty t_id))
    ∧ user !! "preferredLanguage" = Some (VStr "en")
    ∧ user !! "isActive" = Some (VBool true)
    ∧ user !! "createdAt" = Some (VTime t_created)
    ∧ user !! "updatedAt" = Some (VTime t_updated)
    ∧ dom user = list_to_set ["id"; "phoneNumber"; "role"; "serviceId"; "name";
                              "preferredLanguage"; "isActive"; "createdAt"; "updatedAt"].
Proof.
  intros Hphone Hname. unfold SimpleAuthLogin.handleSubmit.
  rewrite (truthy_VStr _ Hphone), (truthy_VStr _ Hname). simpl.
  eexists. split; [reflexivity|].
  repeat (split; [by literal_lookup|]).
  split.
  - literal_lookup. f_equal.
    destruct (String.eqb_spec (SimpleAuthLogin.role f) "responder") as [->|H1];
      [done|].
    destruct (String.eqb_spec (SimpleAuthLogin.role f) "service_admin") as [->|H2];
      [done|].
    simpl. rewrite bool_decide_eq_false_2; [done|].
    intros Hin. repeat (apply elem_of_cons in Hin as [?|Hin]; [done|]).
    by apply elem_of_nil in Hin.
  - repeat (split; [by literal_lookup|]).
    unfold literal; cbn [foldl add_part]. rewrite !dom_insert_L, dom_empty_L.
    set_solver.
Qed.

(** ** The dispatcher console *)

Lemma find_first {A : Type} (p : A → bool) (l : list A) :
  match find p l with
  | Some x => ∃ before after, l = before ++ x :: after ∧ p x = true
                              ∧ Forall (λ y, p y = false) before
  | None => Forall (λ y, p y = false) l
  end.
Proof.
  induction l as [|a l IH]; simpl; [constructor|].
  destruct (p a) eqn:E.
  - exists [], l. by repeat split.
  - destruct (find p l) as [x|].
    + destruct IH as (before & after & -> & Hx & Hb).
      exists (a :: before), after. repeat split; [done|]. by constructor.
    + by constructor.
Qed.

Lemma List_filter_sublist {A : Type} (p : A → bool) (l : list A) :
  List.filter p l `sublist_of` l.
Proof.
  induction l as [|a l IH]; simpl; [constructor|].
  destruct (p a); by constructor.
Qed.

(** What [PATCH /api/incidents/:id] does with an object as body, by
    whether its status is truthy. *)
Lemma patch_incident_effect (id : string) (o : obj) (w : world) :
  let w' := (patch_incident id (VObj o) w).2 in
  let old := default ∅ (incidents (db w) !! id) in
  ∃ updated,
    (patch_incident id (VObj o) w).1 = Response 200 (VObj updated)
    ∧ incidents (db w') = <[id := updated]> (incidents (db w))
    ∧ (truthy (get o "status") = false →
       updated !! "status" = old !! "status"
       ∧ updated !! "updatedAt" = Some (VTime (now_at w (ticks w)))
       ∧ (∀ k, k ∉ ["status"; "updatedAt"] →
               updated !! k = match o !! k with Some v => Some v | None => old !! k end)
       ∧ auditLogs (db w') = auditLogs (db w))
    ∧ (truthy (get o "status") = true →
       updated !! "status" = Some (get o "status")
       ∧ updated !! "updatedAt"
         = Some (default (VTime (now_at w (ticks w))) (o !! "updatedAt"))
       ∧ (is_str (get o "status") "resolved" = true →
          updated !! "completedAt" = Some (VTime (now_at w (S (ticks w)))))
       ∧ (is_str (get o "status") "resolved" = false →
          updated !! "completedAt"
          = match o !! "completedAt" with Some v => Some v | None => old !! "completedAt" end)
       ∧ ∃ log, auditLogs (db w') = <[key_at w (pushes w) := log]> (auditLogs (db w))
                ∧ log !! "action" = Some (VStr "update_status")).
Proof.
  unfold patch_incident, prop. cbn [nullish own_props].
  destruct (truthy (get o "status")) eqn:Htruthy.
  - split_world w. run.
    destruct (is_str (get o "status") "resolved") eqn:Hres; run;
      rewrite lookup_insert_eq; (eexists; split; [reflexivity|]); (split; [reflexivity|]);
      (split; [done|]); intros _.
    + split.
      { apply lookup_union_Some_l. rewrite lookup_insert_ne by done.
        unfold literal; cbn [foldl add_part].
        rewrite lookup_union_r by apply lookup_delete_eq. by literal_lookup. }
      split.
      { apply lookup_union_Some_l. rewrite lookup_insert_ne by done.
        unfold literal; cbn [foldl add_part].
        destruct (o !! "updatedAt") as [v|] eqn:E; cbn [default].
        - apply lookup_union_Some_l. by rewrite lookup_delete_ne.
        - rewrite lookup_union_r by (by rewrite lookup_delete_ne).
          by literal_lookup. }
      split; [intros _; apply lookup_union_Some_l, lookup_insert_eq|].
      split; [done|].
      eexists. split; [reflexivity|]. by literal_lookup.
    + split.
      { apply lookup_union_Some_l.
        unfold literal; cbn [foldl add_part].
        rewrite lookup_union_r by apply lookup_delete_eq. by literal_lookup. }
      split.
      { apply lookup_union_Some_l.
        unfold literal; cbn [foldl add_part].
        destruct (o !! "updatedAt") as [v|] eqn:E; cbn [default].
        - apply lookup_union_Some_l. by rewrite lookup_delete_ne.
        - rewrite lookup_union_r by (by rewrite lookup_delete_ne).
          by literal_lookup. }
      split; [done|].
      split.
      { intros _. unfold literal; cbn [foldl add_part].
        destruct (o !! "completedAt") as [v|] eqn:E.
        - apply lookup_union_Some_l, lookup_union_Some_l. by rewrite lookup_delete_ne.
        - rewrite lookup_union_r; [done|].
          rewrite lookup_union_r by (by rewrite lookup_delete_ne).
          by literal_lookup. }
      eexists. split; [reflexivity|]. by literal_lookup.
  - split_world w. run. rewrite lookup_insert_eq.
    eexists. split; [reflexivity|]. split; [reflexivity|].
    split; [|done]. intros _.
    split.
    { rewrite lookup_union_r; [done|]. unfold literal; cbn [foldl add_part].
      rewrite lookup_insert_ne by done.
      rewrite lookup_union_r by apply lookup_delete_eq. apply lookup_empty. }
    split; [by apply lookup_union_Some_l; literal_lookup|].
    split; [|done].
    intros k Hk. unfold literal; cbn [foldl add_part].
    assert (k ≠ "status") as Hs by (intros ->; apply Hk; solve_elem).
    assert (k ≠ "updatedAt") as Hu by (intros ->; apply Hk; solve_elem).
    destruct (o !! k) as [v|] eqn:E.
    + apply lookup_union_Some_l. rewrite lookup_insert_ne by done.
      apply lookup_union_Some_l. by rewrite lookup_delete_ne.
    + rewrite lookup_union_r; [done|]. rewrite lookup_insert_ne by done.
      rewrite lookup_union_r by (by rewrite lookup_delete_ne). apply lookup_empty.
Qed.

(** C7 (as far as it holds).  The console lists exactly the fetched
    incidents whose status is neither ['resolved'] nor ['closed'], in the
    order fetched; Assign Unit is offered exactly for status ['new'],
    picks the first available unit whose [unitType] equals the incident
    type or is ['unified'], and requests, for the incident, the status
    ['assigned'] with that unit and the dispatcher, and nothing else.
    Resolving has no operation of its own: the service dashboard resolves
    by the status request that it also makes for ['accepted'],
    ['en_route'] and ['on_scene'], and the update route writes each of
    these statuses whatever the record holds; for ['resolved'], and for it
    only, the route stamps [completedAt] as well.  In the in-memory store
    an update to ['resolved'] writes the status and [updatedAt] and
    nothing more. *)
Theorem dispatcher_console_logic (allIncidents emergencyUnits : list obj)
    (incident : obj) (currentUserId id status : string) (w : world)
    (st : MemStorage.store) (now : Z) (stored : obj) :
  (∀ i, i ∈ DispatcherConsole.select allIncidents
        ↔ i ∈ allIncidents ∧ get i "status" ≠ VStr "resolved"
          ∧ get i "status" ≠ VStr "closed")
  ∧ DispatcherConsole.select allIncidents `sublist_of` allIncidents
  ∧ (DispatcherConsole.assign_offered incident = true ↔ get incident "status" = VStr "new")
  ∧ (∀ u, u ∈ DispatcherConsole.availableUnits emergencyUnits
          ↔ u ∈ emergencyUnits ∧ get u "status" = VStr "available")
  ∧ (∀ u, DispatcherConsole.unit_matches incident u = true
          ↔ strict_eq (get u "unitType") (get incident "type") = true
            ∨ get u "unitType" = VStr "unified")
  ∧ match DispatcherConsole.on_assign_click emergencyUnits incident with
    | DispatcherConsole.Mutate incidentId unitId =>
        incidentId = get incident "id"
        ∧ (∃ before unit after,
             DispatcherConsole.availableUnits emergencyUnits = before ++ unit :: after
             ∧ unitId = get unit "id"
             ∧ DispatcherConsole.unit_matches incident unit = true
             ∧ Forall (λ u, DispatcherConsole.unit_matches incident u = false) before)
        ∧ ∃ body,
            DispatcherConsole.mutationFn currentUserId incidentId unitId
            = DispatcherConsole.Request DispatcherConsole.PUT "/api/incidents/"
                (get incident "id") (VObj body)
            ∧ body !! "status" = Some (VStr "assigned")
            ∧ body !! "assignedUnitId" = Some unitId
            ∧ body !! "assignedDispatcherId" = Some (VStr currentUserId)
            ∧ ∀ k, k ∉ ["status"; "assignedUnitId"; "assignedDispatcherId"] →
                   body !! k = None
    | DispatcherConsole.NoAvailableUnits type =>
        type = get incident "type"
        ∧ Forall (λ u, DispatcherConsole.unit_matches incident u = false)
                 (DispatcherConsole.availableUnits emergencyUnits)
    end
  ∧ (valid_key id = true → status ∈ ServiceDashboard.status_options →
     ∃ updated,
       (patch_incident id (ServiceDashboard.status_data status) w).1
         = Response 200 (VObj updated)
       ∧ incidents (db (patch_incident id (ServiceDashboard.status_data status) w).2)
         = <[id := updated]> (incidents (db w))
       ∧ updated !! "status" = Some (VStr status)
       ∧ updated !! "completedAt"
         = if String.eqb status "resolved"
           then Some (VTime (now_at w (S (ticks w))))
           else default ∅ (incidents (db w) !! id) !! "completedAt")
  ∧ (MemStorage.getIncident id st = Some stored →
     (MemStorage.updateIncident id now (literal [Field "status" (VStr "resolved")]) st).2
     = Some (<["updatedAt" := VDate now]> (<["status" := VStr "resolved"]> stored))).
Proof.
  split; [|split; [|split; [|split; [|split; [|split; [|split]]]]]].
  - intros i. unfold DispatcherConsole.select.
    rewrite list_elem_of_In, filter_In, <- list_elem_of_In, andb_true_iff,
      !negb_true_iff.
    rewrite <- !not_true_iff_false, !is_str_true. done.
  - apply List_filter_sublist.
  - apply is_str_true.
  - intros u. unfold DispatcherConsole.availableUnits.
    by rewrite list_elem_of_In, filter_In, <- list_elem_of_In, is_str_true.
  - intros u. unfold DispatcherConsole.unit_matches.
    by rewrite orb_true_iff, is_str_true.
  - unfold DispatcherConsole.on_assign_click.
    pose proof (find_first (DispatcherConsole.unit_matches incident)
                  (DispatcherConsole.availableUnits emergencyUnits)) as Hfind.
    destruct (find _ _) as [unit|]; [|done].
    destruct Hfind as (before & after & Heq & Hm & Hb).
    split; [done|]. split; [by exists before, unit, after|].
    eexists. split; [reflexivity|]. unfold DispatcherConsole.assign_body.
    split; [by literal_lookup|]. split; [by literal_lookup|].
    split; [by literal_lookup|].
    intros k Hk. skip_fields Hk. apply lookup_empty.
  - intros _ Hstatus.
    pose proof (patch_incident_effect id (literal [Field "status" (VStr status)]) w)
      as Heffect.
    cbv zeta in Heffect. destruct Heffect as (updated & Hrun & Hdb & _ & Htruthy).
    assert (get (literal [Field "status" (VStr status)]) "status" = VStr status) as Hget
      by (apply get_lookup; by literal_lookup).
    assert (literal [Field "status" (VStr status)] !! "completedAt" = None) as Hnone
      by by literal_lookup.
    rewrite Hget, Hnone in Htruthy.
    exists updated. split; [exact Hrun|]. split; [exact Hdb|].
    unfold ServiceDashboard.status_options in Hstatus.
    repeat (apply elem_of_cons in Hstatus as [->|Hstatus];
            [destruct (Htruthy eq_refl) as (Hs & _ & Hresolved & Hother & _);
             split; [exact Hs|]; first [exact (Hresolved eq_refl)|exact (Hother eq_refl)]|]).
    by apply elem_of_nil in Hstatus.
  - intros Hget.
    unfold MemStorage.getIncident, MemStorage.updateIncident in *. rewrite Hget.
    cbn [snd]. unfold literal; cbn [foldl add_part].
    by rewrite insert_empty, <- insert_union_singleton_l, (right_id_L ∅ (∪)).
Qed.

(** ** The properties on concrete inputs *)







Lemma sample_store_2_reachable : MemStorage.reachable sample_store_2.
Proof.
  unfold sample_store_2, sample_store_1, sample_store.
  do 3 apply MemStorage.reach_createChatMessage.
  apply MemStorage.reach_createIncident, MemStorage.reach_constructor.
Qed.


Lemma login_always_succeeds_witness :
  ∃ user,
    SimpleAuthLogin.handleSubmit
      (SimpleAuthLogin.Form "+233200000009" "Kofi" "global_admin" "") 1700 1701 1702
      = SimpleAuthLogin.LoginAfter 1000 user
    ∧ user !! "role" = Some (VStr "global_admin")
    ∧ user !! "id" = Some (VStr "1700").
Proof.
  destruct (login_always_succeeds
              (SimpleAuthLogin.Form "+233200000009" "Kofi" "global_admin" "")
              1700 1701 1702)
    as (user & Hrun & _ & _ & Hrole & _ & Hid & _); [discriminate|discriminate|].
  exists user. split; [exact Hrun|]. split; [exact Hrole|exact Hid].
Defined.

Lemma dispatcher_console_logic_witness :
  sample_fire ∈ DispatcherConsole.select sample_incidents
  ∧ sample_resolved ∉ DispatcherConsole.select sample_incidents
  ∧ DispatcherConsole.assign_offered sample_fire = true
  ∧ (∃ body,
       DispatcherConsole.mutationFn "u-0" (VStr "i-1") (VStr "e-3")
       = DispatcherConsole.Request DispatcherConsole.PUT "/api/incidents/" (VStr "i-1")
           (VObj body)
       ∧ body !! "assignedUnitId" = Some (VStr "e-3"))
  ∧ ∃ updated,
      (patch_incident "k0" (ServiceDashboard.status_data "resolved") sample_world_1).1
        = Response 200 (VObj updated)
      ∧ updated !! "status" = Some (VStr "resolved")
      ∧ updated !! "completedAt" = Some (VTime 1004).
Proof.
  destruct (dispatcher_console_logic sample_incidents sample_units sample_fire
              "u-0" "k0" "resolved" sample_world_1 sample_store 0 ∅)
    as (Hselect & _ & Hoffered & _ & _ & Hclick & Hresolve & _).
  change (DispatcherConsole.on_assign_click sample_units sample_fire)
    with (DispatcherConsole.Mutate (VStr "i-1") (VStr "e-3")) in Hclick.
  destruct Hclick as (_ & _ & body & Hrequest & _ & Hunit & _).
  split.
  { apply Hselect. split; [solve_elem|]. split; discriminate. }
  split.
  { intros [_ [Hnot _]]%Hselect. by apply Hnot. }
  split; [by apply Hoffered|].
  split; [exists body; split; [exact Hrequest|exact Hunit]|].
  destruct Hresolve as (updated & Hresp & _ & Hstatus & Hdone); [reflexivity|solve_elem|].
  exists updated. split; [exact Hresp|]. split; [exact Hstatus|exact Hdone].
Defined.

(** Resolving is more than a status write: a request that carries nothing
    but the status ['resolved'] also sets [completedAt], which the record
    did not have and which no other status sets. *)
Lemma resolving_stamps_completedAt :
  incident_prop sample_world_1 "k0" "completedAt" = None
  ∧ incident_prop (patch_incident "k0" (status_body "resolved") sample_world_1).2
      "k0" "status" = Some (VStr "resolved")
  ∧ incident_prop (patch_incident "k0" (status_body "resolved") sample_world_1).2
      "k0" "completedAt" = Some (VTime 1004)
  ∧ incident_prop (patch_incident "k0" (status_body "closed") sample_world_1).2
      "k0" "completedAt" = None.
Proof. by vm_compute. Qed.

(* ===================================================================== *)
(** * Further properties of the in-memory store *)
(* ===================================================================== *)

Section jsmap_more.
Context {V : Type}.
Implicit Types (m : JSMap.t V) (k : string) (v : V).

Lemma jsmap_set_fresh m k v : JSMap.get m k = None → JSMap.set m k v = m ++ [(k, v)].
Proof.
  induction m as [|[k' v'] m IH]; simpl; [done|].
  destruct (String.eqb k' k); [done|]. intros H. by rewrite IH.
Qed.

Lemma jsmap_set_same m k v : JSMap.get m k = Some v → JSMap.set m k v = m.
Proof.
  induction m as [|[k' v'] m IH]; simpl; [done|].
  destruct (String.eqb k' k) eqn:E.
  - apply String.eqb_eq in E as ->. by intros [= ->].
  - intros H. by rewrite IH.
Qed.

Lemma jsmap_get_set_is_Some m k k' v :
  is_Some (JSMap.get m k) → is_Some (JSMap.get (JSMap.set m k' v) k).
Proof.
  intros H. destruct (decide (k' = k)) as [->|Hne].
  - rewrite jsmap_get_set_eq. by eexists.
  - by rewrite jsmap_get_set_ne.
Qed.

Lemma jsmap_length_set m k v : (List.length m ≤ List.length (JSMap.set m k v))%nat.
Proof.
  induction m as [|[k' v'] m IH]; simpl; [lia|].
  destruct (String.eqb k' k); simpl; lia.
Qed.

Lemma jsmap_set_entries_Forall (P : string * V → Prop) m k v :
  Forall P m → P (k, v) → Forall P (JSMap.set m k v).
Proof.
  intros Hm Hv. induction m as [|[k' v'] m IH]; simpl.
  - by repeat constructor.
  - apply Forall_cons in Hm as [Hv' Hm].
    destruct (String.eqb k' k); constructor; auto.
Qed.

End jsmap_more.

Lemma find_snoc {A : Type} (p : A → bool) (l : list A) (x : A) :
  find p (l ++ [x])
  = match find p l with
    | Some y => Some y
    | None => if p x then Some x else None
    end.
Proof.
  induction l as [|a l IH]; simpl; [done|]. by destruct (p a).
Qed.

Lemma store_eta (st : MemStorage.store) :
  MemStorage.Store (MemStorage.users st) (MemStorage.incidents st)
    (MemStorage.chatMessages st) (MemStorage.emergencyUnits st) = st.
Proof. by destruct st. Qed.

(** X1.  A user made by [createUser] can be read back under the new id;
    its [id], [isActive] and [createdAt] are the ones the method sets
    whatever the payload says, its role is the payload's role when that is
    truthy and ['citizen'] otherwise, every other property is the
    payload's, and the other users are not touched. *)
Theorem createUser_roundtrip (id : string) (now : Z) (insertUser : obj)
    (st : MemStorage.store) :
  let '(st', user) := MemStorage.createUser id now insertUser st in
  MemStorage.getUser id st' = Some user
  ∧ user !! "id" = Some (VStr id)
  ∧ user !! "isActive" = Some (VBool true)
  ∧ user !! "createdAt" = Some (VDate now)
  ∧ user !! "role" = Some (if truthy (get insertUser "role")
                           then get insertUser "role" else VStr "citizen")
  ∧ (∀ k, k ∉ ["id"; "role"; "isActive"; "createdAt"] → user !! k = insertUser !! k)
  ∧ (∀ id', id' ≠ id → MemStorage.getUser id' st' = MemStorage.getUser id' st).
Proof.
  unfold MemStorage.createUser, MemStorage.getUser. cbn [MemStorage.with_users MemStorage.users].
  split; [apply jsmap_get_set_eq|].
  split; [by literal_lookup|]. split; [by literal_lookup|]. split; [by literal_lookup|].
  split; [by literal_lookup|].
  split.
  - intros k Hk. skip_fields Hk. by rewrite lookup_union_l by apply lookup_empty.
  - intros id' Hne. by apply jsmap_get_set_ne.
Qed.

(** X2.  Phone numbers are not unique keys: [createUser] under a new id
    never rejects a payload, and [getUserByPhoneNumber] afterwards still
    answers with the user it answered with before; the new user is found
    only when nobody had the number and the payload's [phoneNumber] is
    that string. *)
Theorem getUserByPhoneNumber_after_createUser (phoneNumber id : string) (now : Z)
    (insertUser : obj) (st : MemStorage.store) :
  MemStorage.getUser id st = None →
  let '(st', user) := MemStorage.createUser id now insertUser st in
  MemStorage.getUserByPhoneNumber phoneNumber st'
  = match MemStorage.getUserByPhoneNumber phoneNumber st with
    | Some first => Some first
    | None => if is_str (get insertUser "phoneNumber") phoneNumber
              then Some user else None
    end.
Proof.
  unfold MemStorage.getUser, MemStorage.createUser, MemStorage.getUserByPhoneNumber.
  intros Hfresh. cbn [MemStorage.with_users MemStorage.users].
  rewrite (jsmap_set_fresh _ _ _ Hfresh). unfold JSMap.values.
  rewrite fmap_app. cbn [fmap list_fmap snd]. rewrite find_snoc.
  destruct (find _ _); [done|].
  set (user := literal _).
  assert (get user "phoneNumber" = get insertUser "phoneNumber") as Hphone.
  { unfold get, user. f_equal. unfold literal; cbn [foldl add_part].
    repeat rewrite lookup_insert_ne by done.
    by rewrite lookup_union_l by apply lookup_empty. }
  by rewrite Hphone.
Qed.

Lemma literal_two_spreads (base over : obj) k :
  literal [Spread base; Spread over] !! k
  = match over !! k with Some v => Some v | None => base !! k end.
Proof.
  unfold literal; cbn [foldl add_part].
  destruct (over !! k) as [v|] eqn:E.
  - by apply lookup_union_Some_l.
  - rewrite lookup_union_r by done. by rewrite lookup_union_l by apply lookup_empty.
Qed.

Lemma literal_spread_empty (base : obj) : literal [Spread base; Spread ∅] = base.
Proof.
  apply map_eq. intros k. by rewrite literal_two_spreads, lookup_empty.
Qed.

(** X3.  [updateUser] and [updateEmergencyUnit] overwrite exactly the
    properties the update names (the [id] property included) and keep the
    rest; unlike [updateIncident] they stamp nothing, so an empty update
    leaves the whole store as it was. *)
Theorem update_user_and_unit_merge (id : string) (updates record : obj)
    (st : MemStorage.store) :
  (MemStorage.getUser id st = Some record →
   ∃ updated,
     MemStorage.updateUser id updates st
       = (MemStorage.with_users (λ m, JSMap.set m id updated) st, Some updated)
     ∧ (∀ k, updated !! k
             = match updates !! k with Some v => Some v | None => record !! k end)
     ∧ MemStorage.updateUser id ∅ st = (st, Some record))
  ∧ (MemStorage.getEmergencyUnit id st = Some record →
     ∃ updated,
       MemStorage.updateEmergencyUnit id updates st
         = (MemStorage.with_emergencyUnits (λ m, JSMap.set m id updated) st, Some updated)
       ∧ (∀ k, updated !! k
               = match updates !! k with Some v => Some v | None => record !! k end)
       ∧ MemStorage.updateEmergencyUnit id ∅ st = (st, Some record)).
Proof.
  unfold MemStorage.getUser, MemStorage.getEmergencyUnit, MemStorage.updateUser,
    MemStorage.updateEmergencyUnit.
  split; intros Hget; rewrite Hget; eexists; (split; [reflexivity|]);
    (split; [apply literal_two_spreads|]);
    rewrite literal_spread_empty; f_equal;
    unfold MemStorage.with_users, MemStorage.with_emergencyUnits;
    rewrite (jsmap_set_same _ _ _ Hget); apply store_eta.
Qed.

(** X4.  [getIncidents] returns the stored incidents that pass the two
    filters, each as often as it is stored, newest first when every
    stored incident still has the [Date] it was created with; a filter that
    is absent or whose value is falsy (the empty string, say) filters
    nothing. *)
Theorem getIncidents_filtered_newest_first (filters : option obj)
    (st : MemStorage.store) :
  let stored := JSMap.values (MemStorage.incidents st) in
  let passes k (incident : obj) :=
    truthy (MemStorage.filter_field filters k) = true →
    strict_eq (get incident k) (MemStorage.filter_field filters k) = true in
  (∀ incident, incident ∈ MemStorage.getIncidents filters st
               ↔ incident ∈ stored ∧ passes "status" incident
                 ∧ passes "assignedDispatcherId" incident)
  ∧ MemStorage.getIncidents filters st
    ≡ₚ MemStorage.filter_by filters "assignedDispatcherId"
         (MemStorage.filter_by filters "status" stored)
  ∧ MemStorage.getIncidents None st ≡ₚ stored
  ∧ (Forall MemStorage.dated stored →
     StronglySorted (λ a b, MemStorage.created_le b a)
                    (MemStorage.getIncidents filters st)).
Proof.
  intros stored passes. unfold MemStorage.getIncidents. fold stored.
  assert (Hby : ∀ k l (i : obj),
            i ∈ MemStorage.filter_by filters k l ↔ i ∈ l ∧ passes k i).
  { intros k l i. unfold MemStorage.filter_by, passes.
    destruct (truthy (MemStorage.filter_field filters k)).
    - rewrite list_elem_of_In, filter_In, <- list_elem_of_In. naive_solver.
    - naive_solver. }
  split; [|split; [apply sort_perm|split; [apply sort_perm|]]].
  - intros i. rewrite sort_perm, !Hby. naive_solver.
  - intros Hdated.
    set (kept := MemStorage.filter_by _ _ (MemStorage.filter_by _ _ stored)).
    assert (Forall MemStorage.dated kept) as Hkept.
    { rewrite Forall_forall in *. intros i Hi. apply Hdated.
      subst kept. apply Hby in Hi as [Hi _]. by apply Hby in Hi as [Hi _]. }
    eapply (StronglySorted_strengthen _ _ MemStorage.dated).
    2:{ by rewrite sort_perm. }
    2:{ apply (sort_sorted _ (λ m, - default 0 (MemStorage.createdAt_time m))
                 MemStorage.dated); [|done].
        intros a b [ta Ha] [tb Hb]. rewrite Ha, Hb. simpl. lia. }
    intros a b [ta Ha] [tb Hb]. unfold MemStorage.created_le.
    rewrite Ha, Hb. simpl. lia.
Qed.

(** X5.  A chat message stored under a new id is listed for its incident
    from then on, in addition to the messages listed before, and the
    lists of all other incidents stay as they were; its [messageType] is
    the payload's when that is truthy and ['text'] otherwise. *)
Theorem createChatMessage_listed (id incidentId : string) (now : Z)
    (messageData : obj) (st : MemStorage.store) :
  JSMap.get (MemStorage.chatMessages st) id = None →
  messageData !! "incidentId" = Some (VStr incidentId) →
  let '(st', message) := MemStorage.createChatMessage id now messageData st in
  message ∈ MemStorage.getChatMessages incidentId st'
  ∧ MemStorage.getChatMessages incidentId st'
    ≡ₚ message :: MemStorage.getChatMessages incidentId st
  ∧ (∀ other, other ≠ incidentId →
       MemStorage.getChatMessages other st' = MemStorage.getChatMessages other st)
  ∧ message !! "messageType"
    = Some (if truthy (get messageData "messageType")
            then get messageData "messageType" else VStr "text").
Proof.
  intros Hfresh Hinc.
  unfold MemStorage.createChatMessage, MemStorage.getChatMessages.
  cbn [MemStorage.with_chatMessages MemStorage.chatMessages].
  rewrite (jsmap_set_fresh _ _ _ Hfresh). unfold JSMap.values.
  rewrite fmap_app. cbn [fmap list_fmap snd].
  set (message := literal _).
  assert (get message "incidentId" = VStr incidentId) as Hmine.
  { unfold get, message. unfold literal; cbn [foldl add_part].
    repeat rewrite lookup_insert_ne by done.
    by rewrite (lookup_union_Some_l _ _ _ _ Hinc). }
  assert (∀ i, List.filter (λ msg : obj, is_str (get msg "incidentId") i) [message]
               = if String.eqb incidentId i then [message] else []) as Hone.
  { intros i. cbn [List.filter]. rewrite Hmine. simpl. by destruct (String.eqb incidentId i). }
  assert (MemStorage.getChatMessages incidentId
            (MemStorage.createChatMessage id now messageData st).1
          ≡ₚ message :: MemStorage.getChatMessages incidentId st) as Hperm.
  { unfold MemStorage.createChatMessage, MemStorage.getChatMessages.
    cbn [fst MemStorage.with_chatMessages MemStorage.chatMessages].
    rewrite (jsmap_set_fresh _ _ _ Hfresh). unfold JSMap.values.
    rewrite fmap_app. cbn [fmap list_fmap snd]. fold message.
    rewrite !sort_perm, List.filter_app, Hone, String.eqb_refl.
    by rewrite <- Permutation_cons_append. }
  unfold MemStorage.createChatMessage, MemStorage.getChatMessages in Hperm.
  cbn [fst MemStorage.with_chatMessages MemStorage.chatMessages] in Hperm.
  rewrite (jsmap_set_fresh _ _ _ Hfresh) in Hperm. unfold JSMap.values in Hperm.
  rewrite fmap_app in Hperm. cbn [fmap list_fmap snd] in Hperm. fold message in Hperm.
  split; [rewrite Hperm; apply list_elem_of_here|].
  split; [exact Hperm|].
  split.
  - intros other Hne. rewrite List.filter_app, Hone.
    apply String.eqb_neq in Hne. rewrite String.eqb_sym in Hne. rewrite Hne.
    by rewrite app_nil_r.
  - subst message. by literal_lookup.
Qed.

(** X6.  The in-memory store never forgets: whatever method is called, a
    user, incident, chat message or emergency unit that could be read
    under an id before the call can still be read under it afterwards, and
    no map gets shorter. *)
Theorem step_keeps_ids (st st' : MemStorage.store) :
  MemStorage.step st st' →
  (∀ id, is_Some (MemStorage.getUser id st) → is_Some (MemStorage.getUser id st'))
  ∧ (∀ id, is_Some (MemStorage.getIncident id st) →
           is_Some (MemStorage.getIncident id st'))
  ∧ (∀ id, is_Some (JSMap.get (MemStorage.chatMessages st) id) →
           is_Some (JSMap.get (MemStorage.chatMessages st') id))
  ∧ (∀ id, is_Some (MemStorage.getEmergencyUnit id st) →
           is_Some (MemStorage.getEmergencyUnit id st'))
  ∧ (List.length (MemStorage.users st) ≤ List.length (MemStorage.users st'))%nat
  ∧ (List.length (MemStorage.incidents st) ≤ List.length (MemStorage.incidents st'))%nat
  ∧ (List.length (MemStorage.chatMessages st)
     ≤ List.length (MemStorage.chatMessages st'))%nat
  ∧ (List.length (MemStorage.emergencyUnits st)
     ≤ List.length (MemStorage.emergencyUnits st'))%nat.
Proof.
  unfold MemStorage.getUser, MemStorage.getIncident, MemStorage.getEmergencyUnit.
  intros Hstep.
  destruct Hstep as [id now u st | id updates st | id c u d st | id now updates st
                    | id now d st | id now d st | id updates st].
  - cbn. repeat split; auto using jsmap_get_set_is_Some, jsmap_length_set.
  - unfold MemStorage.updateUser.
    destruct (JSMap.get (MemStorage.users st) id); cbn;
      repeat split; auto using jsmap_get_set_is_Some, jsmap_length_set.
  - cbn. repeat split; auto using jsmap_get_set_is_Some, jsmap_length_set.
  - unfold MemStorage.updateIncident.
    destruct (JSMap.get (MemStorage.incidents st) id); cbn;
      repeat split; auto using jsmap_get_set_is_Some, jsmap_length_set.
  - cbn. repeat split; auto using jsmap_get_set_is_Some, jsmap_length_set.
  - cbn. repeat split; auto using jsmap_get_set_is_Some, jsmap_length_set.
  - unfold MemStorage.updateEmergencyUnit.
    destruct (JSMap.get (MemStorage.emergencyUnits st) id); cbn;
      repeat split; auto using jsmap_get_set_is_Some, jsmap_length_set.
Qed.

(** X7.  Chat messages are write-once: in every store the program can
    hold, a message is stored under the key that its [id] property names
    and carries the [Date] of its creation; and no method changes a stored
    message, except [createChatMessage] called with the very same id. *)
Theorem chat_messages_write_once (st st' : MemStorage.store) :
  (MemStorage.reachable st →
   Forall (λ entry : string * obj,
             entry.2 !! "id" = Some (VStr entry.1) ∧ MemStorage.dated entry.2)
          (MemStorage.chatMessages st))
  ∧ (MemStorage.step st st' →
     ∀ id message,
       JSMap.get (MemStorage.chatMessages st) id = Some message →
       JSMap.get (MemStorage.chatMessages st') id = Some message
       ∨ ∃ now messageData,
           st' = (MemStorage.createChatMessage id now messageData st).1).
Proof.
  split.
  - induction 1 as [| | id updates st _ IH | | id now updates st _ IH
                    | id now messageData st _ IH | | id updates st _ IH].
    + constructor.
    + done.
    + unfold MemStorage.updateUser.
      by destruct (JSMap.get (MemStorage.users st) id).
    + done.
    + unfold MemStorage.updateIncident.
      by destruct (JSMap.get (MemStorage.incidents st) id).
    + cbn. apply jsmap_set_entries_Forall; [done|]. cbn [fst snd].
      split; [by literal_lookup|].
      unfold MemStorage.dated, MemStorage.createdAt_time, get. by literal_lookup.
    + done.
    + unfold MemStorage.updateEmergencyUnit.
      by destruct (JSMap.get (MemStorage.emergencyUnits st) id).
  - intros Hstep id message Hget.
    destruct Hstep as [id0 now u st | id0 updates st | id0 c u d st | id0 now updates st
                      | id0 now d st | id0 now d st | id0 updates st];
      try (by left).
    + left. unfold MemStorage.updateUser.
      by destruct (JSMap.get (MemStorage.users st) id0).
    + left. unfold MemStorage.updateIncident.
      by destruct (JSMap.get (MemStorage.incidents st) id0).
    + destruct (decide (id0 = id)) as [->|Hne].
      * right. by exists now, d.
      * left. cbn. by rewrite jsmap_get_set_ne.
    + left. unfold MemStorage.updateEmergencyUnit.
      by destruct (JSMap.get (MemStorage.emergencyUnits st) id0).
Qed.

Lemma available_filter_status :
  MemStorage.filter_field (Some (literal [Field "status" (VStr "available")])) "status"
  = VStr "available".
Proof. reflexivity. Qed.

Lemma available_filter_unitType :
  MemStorage.filter_field (Some (literal [Field "status" (VStr "available")])) "unitType"
  = VUndef.
Proof. reflexivity. Qed.

(** X8.  A unit made by [createEmergencyUnit] under a new id is
    ['available'] and bound to no incident whatever the payload says, and
    it is appended to the list of all units and to the list of the
    available ones. *)
Theorem createEmergencyUnit_available (id : string) (now : Z) (unitData : obj)
    (st : MemStorage.store) :
  MemStorage.getEmergencyUnit id st = None →
  let available := Some (literal [Field "status" (VStr "available")]) in
  let '(st', unit) := MemStorage.createEmergencyUnit id now unitData st in
  unit !! "status" = Some (VStr "available")
  ∧ unit !! "currentIncidentId" = Some VNull
  ∧ MemStorage.getEmergencyUnit id st' = Some unit
  ∧ MemStorage.getEmergencyUnits None st' = MemStorage.getEmergencyUnits None st ++ [unit]
  ∧ MemStorage.getEmergencyUnits available st'
    = MemStorage.getEmergencyUnits available st ++ [unit].
Proof.
  unfold MemStorage.getEmergencyUnit, MemStorage.createEmergencyUnit,
    MemStorage.getEmergencyUnits.
  intros Hfresh. cbn [MemStorage.with_emergencyUnits MemStorage.emergencyUnits].
  set (unit := literal _).
  assert (unit !! "status" = Some (VStr "available")) as Hstatus
    by (subst unit; by literal_lookup).
  split; [done|]. split; [subst unit; by literal_lookup|].
  split; [apply jsmap_get_set_eq|].
  rewrite (jsmap_set_fresh _ _ _ Hfresh). unfold JSMap.values.
  rewrite fmap_app. cbn [fmap list_fmap snd].
  split; [done|].
  unfold MemStorage.filter_by.
  rewrite available_filter_status, available_filter_unitType.
  cbn [truthy String.eqb negb].
  rewrite List.filter_app. f_equal.
  cbn [List.filter]. unfold get. by rewrite Hstatus.
Qed.

(** X9.  [createIncident] passes every property of the payload through
    except the eight it sets itself; of these the description is the
    payload's when that is truthy and [null] otherwise (so an empty
    description is stored as [null]), and the two timestamps and the id
    are the ones the method made.  Other incidents and the other maps are
    not touched. *)
Theorem createIncident_keeps_payload (id : string) (created updated : Z)
    (incidentData : obj) (st : MemStorage.store) :
  let '(st', incident) := MemStorage.createIncident id created updated incidentData st in
  (∀ k, k ∉ ["id"; "status"; "assignedUnitId"; "assignedDispatcherId"; "mediaUrls";
             "description"; "createdAt"; "updatedAt"] →
        incident !! k = incidentData !! k)
  ∧ incident !! "description"
    = Some (if truthy (get incidentData "description")
            then get incidentData "description" else VNull)
  ∧ incident !! "id" = Some (VStr id)
  ∧ incident !! "createdAt" = Some (VDate created)
  ∧ incident !! "updatedAt" = Some (VDate updated)
  ∧ (∀ id', id' ≠ id → MemStorage.getIncident id' st' = MemStorage.getIncident id' st)
  ∧ MemStorage.users st' = MemStorage.users st
  ∧ MemStorage.chatMessages st' = MemStorage.chatMessages st
  ∧ MemStorage.emergencyUnits st' = MemStorage.emergencyUnits st.
Proof.
  unfold MemStorage.createIncident, MemStorage.getIncident. cbn.
  split.
  { intros k Hk. skip_fields Hk. by rewrite lookup_union_l by apply lookup_empty. }
  split; [by literal_lookup|]. split; [by literal_lookup|].
  split; [by literal_lookup|]. split; [by literal_lookup|].
  split; [intros id' Hne; by apply jsmap_get_set_ne|done].
Qed.

(* ===================================================================== *)
(** * Further properties of the routes *)
(* ===================================================================== *)

(** The keys an incident made by the route can have. *)
(** X10.  An incident made by [POST /api/incidents] has no property
    besides the keys of the insert schema and the six the store sets, so
    nothing else a client sends reaches the database; a body without
    [priority], [isSilent] or [isOffline] gets ['medium'], [false] and
    [false]; the five required strings are stored as sent; the media list
    and the metadata start empty and the timestamps are the server's. *)
Theorem post_incident_defaults_and_whitelist (o : obj) (w : world) :
  is_Some (parse incidentRequestSchema (VObj o)) →
  ∃ incident,
    (post_incident (VObj o) w).1 = Response 201 (VObj incident)
    ∧ (∀ k, k ∉ ["serviceId"; "type"; "category"; "priority"; "title"; "description";
                 "location"; "serviceNumber"; "isSilent"; "isOffline"; "reporterId";
                 "id"; "status"; "mediaUrls"; "metadata"; "createdAt"; "updatedAt"] →
            incident !! k = None)
    ∧ (o !! "priority" = None → incident !! "priority" = Some (VStr "medium"))
    ∧ (o !! "isSilent" = None → incident !! "isSilent" = Some (VBool false))
    ∧ (o !! "isOffline" = None → incident !! "isOffline" = Some (VBool false))
    ∧ (∀ k, k ∈ ["serviceId"; "type"; "category"; "title"; "serviceNumber"] →
            incident !! k = o !! k)
    ∧ incident !! "mediaUrls" = Some (VArr [])
    ∧ incident !! "metadata" = Some (VObj ∅)
    ∧ incident !! "createdAt" = Some (VTime (now_at w (ticks w)))
    ∧ incident !! "updatedAt" = Some (VTime (now_at w (S (ticks w)))).
Proof.
  intros [r Hparse]. pose proof Hparse as Hp.
  rewrite incidentRequestSchema_shape in Hp.
  apply parse_object_inv in Hp as (o' & out & [= <-] & -> & Hshape).
  destruct (parse_shape_lookup _ _ _ Hshape incidentRequestSchema_keys) as [_ Hstrip].
  unfold post_incident. rewrite Hparse. split_world w. run.
  eexists. split; [reflexivity|].
  assert (∀ k v, out !! k = Some v →
            k ∉ ["status"; "mediaUrls"; "metadata"; "createdAt"; "updatedAt"] →
            literal [Field "id" (VStr (key ps)); Spread out;
                     Field "status" (VStr "new"); Field "mediaUrls" (VArr []);
                     Field "metadata" (VObj ∅); Field "createdAt" (VTime (now tk));
                     Field "updatedAt" (VTime (now (S tk)))] !! k = Some v) as Hkept.
  { intros k v Hv Hk. skip_fields Hk. by apply lookup_union_Some_l. }
  split.
  { intros k Hk. skip_fields Hk.
    rewrite lookup_union_r; [by skip_fields Hk|].
    apply Hstrip. cbn. intros Hin. apply Hk.
    repeat (apply elem_of_cons in Hin as [->|Hin]; [solve_elem|]).
    by apply elem_of_nil in Hin. }
  split.
  { intros Hnone. apply Hkept; [|apply (bool_decide_unpack _); by vm_compute].
    apply (parsed_default o _ out "priority"
             (ZEnum ["low"; "medium"; "high"; "critical"]) (VStr "medium") (VStr "medium")
             Hshape incidentRequestSchema_keys);
      [solve_elem | exact Hnone | reflexivity | discriminate]. }
  split.
  { intros Hnone. apply Hkept; [|apply (bool_decide_unpack _); by vm_compute].
    apply (parsed_default o _ out "isSilent" ZBoolean (VBool false) (VBool false)
             Hshape incidentRequestSchema_keys);
      [solve_elem | exact Hnone | reflexivity | discriminate]. }
  split.
  { intros Hnone. apply Hkept; [|apply (bool_decide_unpack _); by vm_compute].
    apply (parsed_default o _ out "isOffline" ZBoolean (VBool false) (VBool false)
             Hshape incidentRequestSchema_keys);
      [solve_elem | exact Hnone | reflexivity | discriminate]. }
  split.
  { intros k Hk.
    assert ((k, ZString) ∈ [("serviceId", ZString); ("type", ZString);
              ("category", ZString);
              ("priority",
                 ZDefault (ZEnum ["low"; "medium"; "high"; "critical"]) (VStr "medium"));
              ("title", ZString); ("description", ZOptional ZString);
              ("location", locationSchema); ("serviceNumber", ZString);
              ("isSilent", ZDefault ZBoolean (VBool false));
              ("isOffline", ZDefault ZBoolean (VBool false));
              ("reporterId", ZOptional ZString)]) as Hin.
    { repeat (apply elem_of_cons in Hk as [->|Hk]; [solve_elem|]).
      by apply elem_of_nil in Hk. }
    destruct (shape_string_key _ _ _ k Hshape incidentRequestSchema_keys Hin) as [s Hs].
    rewrite Hs. apply Hkept.
    - by rewrite (parsed_string _ _ _ k Hshape incidentRequestSchema_keys Hin).
    - repeat (apply elem_of_cons in Hk as [->|Hk];
              [apply (bool_decide_unpack _); by vm_compute|]).
      by apply elem_of_nil in Hk. }
  repeat (split; [by literal_lookup|]). by literal_lookup.
Qed.

(** X11.  Every incident made by the route leaves exactly one audit-log
    entry, under the next push key: action ['create_incident'], the new
    incident as entity, and as user the [reporterId] of the body, or
    ['system'] when the body has none or an empty one.  The other
    collections and the sockets are not touched. *)
Theorem post_incident_audit (o : obj) (w : world) :
  is_Some (parse incidentRequestSchema (VObj o)) →
  let w' := (post_incident (VObj o) w).2 in
  ∃ log,
    auditLogs (db w') = <[key_at w (S (pushes w)) := log]> (auditLogs (db w))
    ∧ log !! "action" = Some (VStr "create_incident")
    ∧ log !! "entityType" = Some (VStr "incident")
    ∧ log !! "entityId" = Some (VStr (key_at w (pushes w)))
    ∧ log !! "userId" = Some (or_else (get o "reporterId") (VStr "system"))
    ∧ incidentAssignments (db w') = incidentAssignments (db w)
    ∧ chatMessages (db w') = chatMessages (db w)
    ∧ clients w' = clients w.
Proof.
  intros [r Hparse]. pose proof Hparse as Hp.
  rewrite incidentRequestSchema_shape in Hp.
  apply parse_object_inv in Hp as (o' & out & [= <-] & -> & Hshape).
  assert (get out "reporterId" = get o "reporterId") as Hrep.
  { apply (parsed_optional_string _ _ _ _ Hshape incidentRequestSchema_keys). solve_elem. }
  unfold post_incident. rewrite Hparse. split_world w. run.
  eexists. split; [reflexivity|].
  rewrite Hrep. repeat (split; [by literal_lookup|]). done.
Qed.

(** X12.  Which timestamps a [PATCH /api/incidents/:id] lets the client
    set, for an id that the database takes and a body whose properties are
    strings, numbers and booleans under names that the database takes.
    The route answers 200 with the stored record.  Without a truthy status
    the record's status stays, [updatedAt] is the server's clock whatever
    the body says, every other property named by the body is overwritten,
    and no audit entry is made.  With a truthy status the status is
    stored, an ['update_status'] audit entry is made, and an [updatedAt]
    sent by the client wins over the server's clock; for ['resolved'] the
    server's [completedAt] wins over the client's. *)
Theorem patch_incident_timestamps (id : string) (o : obj) (w : world) :
  valid_key id = true →
  plain o = true →
  let w' := (patch_incident id (VObj o) w).2 in
  let old := default ∅ (incidents (db w) !! id) in
  ∃ updated,
    (patch_incident id (VObj o) w).1 = Response 200 (VObj updated)
    ∧ incidents (db w') = <[id := updated]> (incidents (db w))
    ∧ (truthy (get o "status") = false →
       updated !! "status" = old !! "status"
       ∧ updated !! "updatedAt" = Some (VTime (now_at w (ticks w)))
       ∧ (∀ k, k ∉ ["status"; "updatedAt"] →
               updated !! k = match o !! k with Some v => Some v | None => old !! k end)
       ∧ auditLogs (db w') = auditLogs (db w))
    ∧ (truthy (get o "status") = true →
       updated !! "status" = Some (get o "status")
       ∧ updated !! "updatedAt"
         = Some (default (VTime (now_at w (ticks w))) (o !! "updatedAt"))
       ∧ (is_str (get o "status") "resolved" = true →
          updated !! "completedAt" = Some (VTime (now_at w (S (ticks w)))))
       ∧ (is_str (get o "status") "resolved" = false →
          updated !! "completedAt"
          = match o !! "completedAt" with Some v => Some v | None => old !! "completedAt" end)
       ∧ ∃ log, auditLogs (db w') = <[key_at w (pushes w) := log]> (auditLogs (db w))
                ∧ log !! "action" = Some (VStr "update_status")).
Proof.
  intros _ _. apply patch_incident_effect.
Qed.

(** X13.  Requests the routes turn down leave the server exactly as it
    was: a [null] or missing body makes the update and the assignment
    routes answer 500, and an assignment whose [responderId] is missing or
    falsy is answered 400. *)
Theorem rejected_requests_change_nothing (id : string) (reqBody responderId : val)
    (w : world) :
  (nullish reqBody = true →
   patch_incident id reqBody w = (handleError "Failed to update incident", w)
   ∧ post_assign id reqBody w = (handleError "Failed to assign incident", w))
  ∧ (prop reqBody "responderId" = Some responderId → truthy responderId = false →
     post_assign id reqBody w
     = (Response 400 (error_body "Responder ID is required"), w)).
Proof.
  split.
  - intros Hnull. unfold patch_incident, post_assign, prop. by rewrite Hnull.
  - intros Hprop Hfalsy. unfold post_assign. by rewrite Hprop, Hfalsy.
Qed.


(** X15.  Whatever arrives on a socket, the handler only ever appends:
    every socket keeps its ready state and the frames it was sent before,
    gets at most one more frame, no socket is added or dropped, and the
    incidents, the assignment history and the audit log are not
    touched. *)
Theorem on_message_appends_only (data : option val) (w : world) :
  let w' := (on_message data w).2 in
  List.length (clients w') = List.length (clients w)
  ∧ (∀ i c, clients w !! i = Some c →
       ∃ c', clients w' !! i = Some c'
             ∧ state c' = state c
             ∧ frames c `prefix_of` frames c'
             ∧ (List.length (frames c') ≤ S (List.length (frames c)))%nat)
  ∧ incidents (db w') = incidents (db w)
  ∧ incidentAssignments (db w') = incidentAssignments (db w)
  ∧ auditLogs (db w') = auditLogs (db w).
Proof.
  assert (Hsame : ∀ i c, clients w !! i = Some c →
            ∃ c', clients w !! i = Some c' ∧ state c' = state c
                  ∧ frames c `prefix_of` frames c'
                  ∧ (List.length (frames c') ≤ S (List.length (frames c)))%nat).
  { intros i c Hc. exists c. repeat split; [done|done|lia]. }
  unfold on_message.
  destruct data as [message|]; [|by repeat split].
  destruct (prop message "type") as [type|]; [|by repeat split].
  destruct (is_str type "chat_message"); [|by repeat split].
  clear Hsame. split_world w. run.
  match goal with |- context [accepts ?document] => destruct (accepts document) end; run.
  2:{ split; [reflexivity|]. split; [|done].
      intros i c Hc. exists c. repeat split; [done|done|lia]. }
  split; [apply length_map|]. split; [|done].
  intros i c Hc. rewrite list_lookup_fmap, Hc. cbn [fmap option_fmap option_map].
  eexists. split; [reflexivity|].
  destruct (is_open (state c)); unfold send; cbn [state frames].
  - split; [done|]. split; [by apply prefix_app_r|]. rewrite length_app. simpl. lia.
  - repeat split; [done|lia].
Qed.

(** X16.  Which frames change the database.  Of the frames that carry a
    string, number or boolean, or nothing, as [incidentId], as [content]
    and as [senderId], the ones that change the database are exactly those
    that decode to an object of type ['chat_message'] with all three
    present, the key for the new message being unused; every other frame,
    also one that does not decode or lacks one of the three, leaves the
    database as it was, and then no socket is sent anything. *)
Theorem on_message_changes_iff_chat (data : option val) (w : world) :
  chatMessages (db w) !! key_at w (pushes w) = None →
  (∀ message k, data = Some (VObj message) →
                k ∈ ["incidentId"; "content"; "senderId"] →
                get message k = VUndef ∨ scalar (get message k) = true) →
  let w' := (on_message data w).2 in
  (db w' = db w
   ↔ ¬ ∃ message, data = Some (VObj message)
                  ∧ message !! "type" = Some (VStr "chat_message")
                  ∧ ∀ k, k ∈ ["incidentId"; "content"; "senderId"] →
                         scalar (get message k) = true)
  ∧ (db w' = db w → clients w' = clients w).
Proof.
  intros Hfresh Hfields w'.
  assert ((∀ message, data = Some (VObj message) →
                      get message "type" ≠ VStr "chat_message") →
          (db w' = db w
           ↔ ¬ ∃ message, data = Some (VObj message)
                          ∧ message !! "type" = Some (VStr "chat_message")
                          ∧ ∀ k, k ∈ ["incidentId"; "content"; "senderId"] →
                                 scalar (get message k) = true)
          ∧ (db w' = db w → clients w' = clients w)) as Hignored.
  { intros Hother. unfold w'. rewrite (on_message_ignores data w Hother). cbn [snd].
    split; [|done]. split; [|done].
    intros _ (message & Hdata & Htype & _).
    apply (Hother message Hdata). by apply get_lookup. }
  destruct data as [[| |b|q|s|t|l|message]|]; try (apply Hignored; intros m [=]; fail).
  destruct (is_str (get message "type") "chat_message") eqn:Htype.
  2:{ apply Hignored. intros m [= <-] Hm. apply is_str_true in Hm. congruence. }
  apply is_str_true in Htype.
  apply get_defined in Htype; [|done]. clear Hignored.
  pose proof (on_message_chat message w Htype) as Hrun. cbv zeta in Hrun.
  destruct (Hfields message "incidentId" eq_refl) as [Hi|Hi]; [solve_elem| |].
  { unfold w'. rewrite Hrun, Hi. cbn [accepts andb snd db clients].
    split; [|done]. split; [|done].
    intros _ (m & [= <-] & _ & Hall).
    specialize (Hall "incidentId"). rewrite Hi in Hall.
    assert (scalar VUndef = true) as Hbad by (apply Hall; solve_elem).
    discriminate Hbad. }
  destruct (Hfields message "content" eq_refl) as [Hc|Hc]; [solve_elem| |].
  { unfold w'. rewrite Hrun, Hc. cbn [accepts andb]. rewrite andb_false_r.
    cbn [andb snd db clients].
    split; [|done]. split; [|done].
    intros _ (m & [= <-] & _ & Hall).
    specialize (Hall "content"). rewrite Hc in Hall.
    assert (scalar VUndef = true) as Hbad by (apply Hall; solve_elem).
    discriminate Hbad. }
  destruct (Hfields message "senderId" eq_refl) as [Hs|Hs]; [solve_elem| |].
  { unfold w'. rewrite Hrun, Hs. cbn [accepts andb]. rewrite andb_false_r.
    cbn [snd db clients].
    split; [|done]. split; [|done].
    intros _ (m & [= <-] & _ & Hall).
    specialize (Hall "senderId"). rewrite Hs in Hall.
    assert (scalar VUndef = true) as Hbad by (apply Hall; solve_elem).
    discriminate Hbad. }
  assert (db w' ≠ db w) as Hchanged.
  { unfold w'. rewrite Hrun.
    rewrite (accepts_scalar _ Hi), (accepts_scalar _ Hc), (accepts_scalar _ Hs).
    cbn [andb snd db]. intros Hsame.
    apply (f_equal (λ d, chatMessages d !! key_at w (pushes w))) in Hsame.
    cbn [with_chatMessages chatMessages] in Hsame.
    rewrite lookup_insert_eq, Hfresh in Hsame. discriminate Hsame. }
  split; [|by intros ?]. split; [by intros ?|].
  intros Hnone. destruct Hnone. exists message. split; [done|]. split; [done|].
  intros k Hk.
  repeat (apply elem_of_cons in Hk as [->|Hk]; [assumption|]).
  by apply elem_of_nil in Hk.
Qed.

(** ** Listing and reading incidents *)

Lemma get_VStr (o : obj) k s : get o k = VStr s ↔ o !! k = Some (VStr s).
Proof.
  split; [intros H; by apply get_defined|apply get_lookup].
Qed.

Lemma List_filter_all {A : Type} (p : A → bool) (l : list A) :
  (∀ x, x ∈ l → p x = true) → List.filter p l = l.
Proof.
  induction l as [|x l IH]; intros Hall; [done|]. simpl.
  rewrite (Hall x) by apply list_elem_of_here.
  f_equal. apply IH. intros y Hy. apply Hall. by apply list_elem_of_further.
Qed.

(** The incidents that [getActiveIncidents] lists. *)
Lemma getActiveIncidents_elem (Object_values : gmap string obj → list obj) (w : world)
    (incident : obj) :
  (∀ c, Object_values c ≡ₚ (map_to_list c).*2) →
  incident ∈ (FirebaseStorage.getActiveIncidents Object_values w).1
  ↔ (∃ id, incidents (db w) !! id = Some incident)
    ∧ ∃ s, s ∈ FirebaseStorage.active_statuses ∧ incident !! "status" = Some (VStr s).
Proof.
  intros Hperm. unfold FirebaseStorage.getActiveIncidents.
  unfold mbind, mret, M_bind, M_ret, read_db. cbn [fst snd].
  assert (incident ∈ Object_values (incidents (db w))
          ↔ ∃ id, incidents (db w) !! id = Some incident) as Hvalues.
  { rewrite (Hperm (incidents (db w))), list_elem_of_fmap. split.
    - intros ([id o] & -> & Hin). exists id. by apply elem_of_map_to_list.
    - intros (id & Hid). exists (id, incident). split; [done|].
      by apply elem_of_map_to_list. }
  case_bool_decide as Hempty; cbn [fst].
  - split; [by intros ?%elem_of_nil|].
    intros [(id & Hid) _]. rewrite Hempty in Hid. by rewrite lookup_empty in Hid.
  - rewrite list_elem_of_In, filter_In, <- list_elem_of_In, Hvalues, includes_true.
    by setoid_rewrite get_VStr.
Qed.

(** X17.  [GET /api/incidents] answers 200 with exactly the stored
    incidents whose status is one of the five active ones, and changes
    nothing.  The [select] that the dispatcher console applies to this
    list keeps every incident of it, and so does the ['active'] filter of
    the service dashboard, which names the same five statuses. *)
Theorem get_incidents_lists_active (Object_values : gmap string obj → list obj)
    (w : world) :
  (∀ c, Object_values c ≡ₚ (map_to_list c).*2) →
  ∃ listed,
    get_incidents Object_values w = (Response 200 (VArr (VObj <$> listed)), w)
    ∧ (∀ incident, incident ∈ listed ↔
         (∃ id, incidents (db w) !! id = Some incident)
         ∧ ∃ s, s ∈ FirebaseStorage.active_statuses
                ∧ incident !! "status" = Some (VStr s))
    ∧ (List.length listed ≤ size (incidents (db w)))%nat
    ∧ DispatcherConsole.select listed = listed
    ∧ ServiceDashboard.filteredIncidents "active" listed = listed.
Proof.
  intros Hperm.
  exists (FirebaseStorage.getActiveIncidents Object_values w).1.
  assert (∀ incident,
            incident ∈ (FirebaseStorage.getActiveIncidents Object_values w).1 →
            includes FirebaseStorage.active_statuses (get incident "status") = true)
    as Hactive.
  { intros incident [_ (s & Hs & Hst)]%(getActiveIncidents_elem _ _ _ Hperm).
    apply includes_true. exists s. split; [done|by apply get_lookup]. }
  split; [|split; [|split; [|split]]].
  - unfold get_incidents, FirebaseStorage.getActiveIncidents.
    unfold mbind, mret, M_bind, M_ret, read_db. by case_bool_decide.
  - intros incident. by apply getActiveIncidents_elem.
  - unfold FirebaseStorage.getActiveIncidents.
    unfold mbind, mret, M_bind, M_ret, read_db. case_bool_decide; cbn [fst].
    + simpl. lia.
    + etransitivity; [apply filter_length_le|].
      rewrite (Hperm (incidents (db w))), length_fmap.
      by rewrite length_map_to_list.
  - apply List_filter_all. intros incident Hin.
    apply Hactive, includes_true in Hin as (s & Hs & ->).
    unfold FirebaseStorage.active_statuses in Hs.
    repeat (apply elem_of_cons in Hs as [->|Hs]; [done|]). by apply elem_of_nil in Hs.
  - apply List_filter_all. intros incident Hin. by apply Hactive.
Qed.





(** ** The page and its views *)

Lemma handleViewChange_user (view : Home.ViewType) (st : Home.state) :
  Home.currentUser (Home.handleViewChange view st) = Home.currentUser st.
Proof. unfold Home.handleViewChange. by repeat case_match. Qed.

(** The view of the page is one of those offered to the user's role. *)
Lemma home_reachable_views (st : Home.state) :
  Home.reachable st →
  match Home.currentUser st with
  | Some user => Home.currentView st ∈ Home.getAvailableViews user
  | None => Home.currentView st = Home.citizen
  end.
Proof.
  induction 1 as [|e [user view] Hreach IH Henabled]; [done|].
  destruct e as [user'| | |view']; destruct user as [user|];
    cbn [Home.enabled Home.logged_in Home.currentUser negb] in Henabled; try done;
    cbn [Home.handle Home.handleLogin Home.role_effect Home.handleLogout
         Home.currentUser Home.currentView] in *.
  - subst view. unfold Home.getAvailableViews.
    repeat case_match; solve_elem.
  - unfold Home.view_of_role, Home.getAvailableViews.
    repeat case_match; simpl; try solve_elem; try done.
  - rewrite handleViewChange_user. cbn [Home.currentUser].
    unfold Home.handleViewChange, Home.role, Home.logged_in.
    cbn [Home.currentUser negb orb].
    unfold Home.getAvailableViews in *.
    destruct (is_str (get user "role") "global_admin");
      destruct (is_str (get user "role") "service_admin");
      destruct (is_str (get user "role") "responder");
      destruct (is_str (get user "role") "citizen");
      destruct view'; cbn [andb orb negb Home.currentUser Home.currentView app] in *;
      try done; solve_elem.
Qed.

(** X21.  Access to the views of the page: whatever the sequence of
    logins, logouts and view changes, the global administration view is
    shown only to a user whose role is ['global_admin'], the service view
    only to a responder, a service administrator or a global
    administrator, a user whose role is ['citizen'] sees the citizen view,
    and with nobody logged in the view is the citizen one. *)
Theorem home_view_follows_role (st : Home.state) :
  Home.reachable st →
  (Home.currentUser st = None → Home.currentView st = Home.citizen)
  ∧ (Home.currentView st = Home.global_admin → Home.role st = VStr "global_admin")
  ∧ (Home.currentView st = Home.service →
     Home.role st ∈ [VStr "responder"; VStr "service_admin"; VStr "global_admin"])
  ∧ (Home.role st = VStr "citizen" → Home.currentView st = Home.citizen).
Proof.
  intros Hviews%home_reachable_views.
  destruct st as [[user|] view]; cbn [Home.currentUser Home.currentView Home.role] in *.
  2:{ subst view. repeat split; done. }
  unfold Home.getAvailableViews in Hviews. split; [done|].
  split; [|split].
  - intros ->. apply is_str_true.
    destruct (is_str (get user "role") "global_admin"); [done|].
    destruct (is_str (get user "role") "responder" || is_str (get user "role") "service_admin");
      repeat (apply elem_of_cons in Hviews as [Hviews|Hviews]; [done|]);
      by apply elem_of_nil in Hviews.
  - intros ->.
    destruct (is_str (get user "role") "responder") eqn:Er;
      [apply is_str_true in Er; rewrite Er; solve_elem|].
    destruct (is_str (get user "role") "service_admin") eqn:Es;
      [apply is_str_true in Es; rewrite Es; solve_elem|].
    destruct (is_str (get user "role") "global_admin") eqn:Eg;
      [apply is_str_true in Eg; rewrite Eg; solve_elem|].
    cbn [orb] in Hviews.
    repeat (apply elem_of_cons in Hviews as [Hviews|Hviews]; [done|]).
    by apply elem_of_nil in Hviews.
  - intros Hc. rewrite Hc in Hviews. cbn in Hviews.
    apply elem_of_cons in Hviews as [Hviews|Hviews]; [done|].
    by apply elem_of_nil in Hviews.
Qed.

(** X22.  The views that [getAvailableViews] offers and the view changes
    that [handleViewChange] carries out differ for responders: a user of
    any other role who picks an offered view gets it, while for a
    responder, who is offered the citizen and the service view, a view
    change does nothing at all. *)
Theorem home_offered_views_granted (st : Home.state) (user : obj)
    (view : Home.ViewType) :
  Home.reachable st →
  Home.currentUser st = Some user →
  view ∈ Home.getAvailableViews user →
  (get user "role" ≠ VStr "responder" →
   Home.handleViewChange view st = Home.State (Some user) view)
  ∧ (get user "role" = VStr "responder" →
     Home.getAvailableViews user = [Home.citizen; Home.service]
     ∧ ∀ view', Home.handleViewChange view' st = st).
Proof.
  intros Hviews%home_reachable_views Huser Hview.
  destruct st as [user' current]. cbn [Home.currentUser Home.currentView] in *.
  subst user'. unfold Home.handleViewChange, Home.role, Home.logged_in.
  cbn [Home.currentUser Home.currentView negb orb].
  unfold Home.getAvailableViews in *. split.
  - intros Hother.
    destruct (get user "role") as [| |b|q|s|t|l|o]; cbn [is_str orb andb app] in *;
      try (apply elem_of_cons in Hview as [->|Hview]; [|by apply elem_of_nil in Hview];
           apply elem_of_cons in Hviews as [->|Hviews]; [|by apply elem_of_nil in Hviews];
           done).
    destruct (String.eqb s "global_admin") eqn:Eg; [done|].
    destruct (String.eqb s "service_admin") eqn:Es.
    { apply String.eqb_eq in Es. subst s.
      cbn [String.eqb Ascii.eqb Bool.eqb orb andb app] in *.
      repeat (apply elem_of_cons in Hview as [->|Hview]; [done|]).
      by apply elem_of_nil in Hview. }
    destruct (String.eqb s "responder") eqn:Er.
    { apply String.eqb_eq in Er. by subst s. }
    cbn [orb andb app] in *.
    apply elem_of_cons in Hview as [->|Hview]; [|by apply elem_of_nil in Hview].
    apply elem_of_cons in Hviews as [->|Hviews]; [|by apply elem_of_nil in Hviews].
    by destruct (String.eqb s "citizen").
  - intros ->. split; [done|]. intros view'. by destruct view'.
Qed.

(** ** The service dashboard after an assignment *)


(** ** The chat window *)


(** ** The SOS buttons *)

(** A body that does not hold a string under a required string key of the
    request schema is rejected. *)
Lemma post_incident_requires (o : obj) (k : string) (w : world) :
  k ∈ ["serviceId"; "type"; "category"; "title"; "serviceNumber"] →
  o !! k = None →
  post_incident (VObj o) w = (Response 400 (error_body "Invalid incident data"), w).
Proof.
  intros Hk Hnone. unfold post_incident.
  destruct (parse incidentRequestSchema (VObj o)) as [r|] eqn:Hparse; [|done].
  exfalso. rewrite incidentRequestSchema_shape in Hparse.
  apply parse_object_inv in Hparse as (o' & out & [= <-] & -> & Hshape).
  destruct (shape_string_key _ _ _ k Hshape incidentRequestSchema_keys) as [s Hs].
  - repeat (apply elem_of_cons in Hk as [->|Hk]; [solve_elem|]).
    by apply elem_of_nil in Hk.
  - by rewrite Hnone in Hs.
Qed.

(** X25.  The incident that the SOS buttons of [CitizenInterface] send
    names no [serviceId] and no [category], which the request schema of
    [POST /api/incidents] requires: the route answers every such request
    with 400 ['Invalid incident data'] and stores nothing.  Without a
    location the mutation fails before any request is made. *)
Theorem sos_payload_is_rejected (type serviceNumber currentUserId : string)
    (isSilent : option bool) (location : option obj) (w : world) :
  match CitizenInterface.emergencySOS type serviceNumber isSilent location currentUserId with
  | CitizenInterface.Failed message =>
      location = None ∧ message = "Location not available"
  | CitizenInterface.Post incidentData =>
      is_Some location
      ∧ incidentData !! "serviceId" = None
      ∧ incidentData !! "category" = None
      ∧ incidentData !! "reporterId" = Some (VStr currentUserId)
      ∧ post_incident (VObj incidentData) w
        = (Response 400 (error_body "Invalid incident data"), w)
  end.
Proof.
  unfold CitizenInterface.emergencySOS. destruct location as [location|]; [|done].
  split; [done|]. split; [by literal_lookup|]. split; [by literal_lookup|].
  split; [by literal_lookup|].
  apply (post_incident_requires _ "serviceId"); [solve_elem|by literal_lookup].
Qed.

(** ** From the login form to the page *)

(** X26.  The role that decides the view is the one typed into the login
    form: the user that an accepted submit hands to [onLogin] is logged in
    by the page, and the role effect then shows the view of the role
    chosen in the form, so choosing ['global_admin'] there opens the
    global administration view. *)
Theorem self_declared_role_opens_view (f : SimpleAuthLogin.form)
    (t_id t_created t_updated delay : Z) (user : obj) :
  SimpleAuthLogin.handleSubmit f t_id t_created t_updated
    = SimpleAuthLogin.LoginAfter delay user →
  let st := Home.handle Home.RoleEffect (Home.handle (Home.Login user) Home.initial) in
  Home.reachable st
  ∧ st = Home.State (Some user) (Home.view_of_role (VStr (SimpleAuthLogin.role f)))
  ∧ (SimpleAuthLogin.role f = "global_admin" → Home.currentView st = Home.global_admin)
  ∧ (SimpleAuthLogin.role f = "responder" ∨ SimpleAuthLogin.role f = "service_admin" →
     Home.currentView st = Home.service).
Proof.
  intros Hsubmit st. revert Hsubmit. unfold SimpleAuthLogin.handleSubmit.
  destruct (negb (truthy (VStr (SimpleAuthLogin.phoneNumber f)))
            || negb (truthy (VStr (SimpleAuthLogin.name f)))); [done|].
  intros [= _ Huser]. subst user.
  assert (st = Home.State (Some (literal
            [Field "id" (VStr (pretty t_id));
             Field "phoneNumber" (VStr (SimpleAuthLogin.phoneNumber f));
             Field "role" (VStr (SimpleAuthLogin.role f));
             Field "serviceId"
               (if String.eqb (SimpleAuthLogin.role f) "responder"
                   || String.eqb (SimpleAuthLogin.role f) "service_admin"
                then VStr (SimpleAuthLogin.serviceId f) else VUndef);
             Field "name" (VStr (SimpleAuthLogin.name f));
             Field "preferredLanguage" (VStr "en");
             Field "isActive" (VBool true);
             Field "createdAt" (VTime t_created);
             Field "updatedAt" (VTime t_updated)]))
            (Home.view_of_role (VStr (SimpleAuthLogin.role f)))) as Hst.
  { unfold st. cbn [Home.handle Home.handleLogin Home.role_effect Home.currentUser
                    Home.initial Home.currentView].
    reflexivity. }
  split; [|split; [exact Hst|]].
  - unfold st. apply Home.reach_event; [|reflexivity].
    apply Home.reach_event; [|reflexivity]. apply Home.reach_initial.
  - rewrite Hst. cbn [Home.currentView]. split.
    + by intros ->.
    + by intros [-> | ->].
Qed.

(* ===================================================================== *)
(** * The further properties on concrete inputs *)
(* ===================================================================== *)

Lemma getUserByPhoneNumber_after_createUser_witness :
  let '(st', user) := MemStorage.createUser "u-9" 5000 sample_user sample_store in
  MemStorage.getUserByPhoneNumber "+233200000009" st'
  = match MemStorage.getUserByPhoneNumber "+233200000009" sample_store with
    | Some first => Some first
    | None => if is_str (get sample_user "phoneNumber") "+233200000009"
              then Some user else None
    end.
Proof.
  apply (getUserByPhoneNumber_after_createUser "+233200000009" "u-9" 5000
           sample_user sample_store).
  reflexivity.
Defined.

Lemma update_user_and_unit_merge_witness :
  ∃ updated,
    MemStorage.updateUser "u-9" (literal [Field "name" (VStr "Ama")]) sample_store_3
      = (MemStorage.with_users (λ m, JSMap.set m "u-9" updated) sample_store_3,
         Some updated)
    ∧ updated !! "name" = Some (VStr "Ama")
    ∧ updated !! "phoneNumber" = Some (VStr "+233200000009").
Proof.
  destruct (proj1 (update_user_and_unit_merge "u-9" (literal [Field "name" (VStr "Ama")])
                     (MemStorage.createUser "u-9" 5000 sample_user sample_store).2
                     sample_store_3) eq_refl)
    as (updated & Hrun & Hmerge & _).
  exists updated. split; [exact Hrun|]. rewrite !Hmerge. split; reflexivity.
Defined.

Lemma getIncidents_filtered_newest_first_witness :
  MemStorage.getIncidents None sample_store_1
    ≡ₚ JSMap.values (MemStorage.incidents sample_store_1)
  ∧ StronglySorted (λ a b, MemStorage.created_le b a)
      (MemStorage.getIncidents (Some (literal [Field "status" (VStr "new")]))
         sample_store_1).
Proof.
  pose proof (getIncidents_filtered_newest_first
                (Some (literal [Field "status" (VStr "new")])) sample_store_1) as H.
  cbv zeta in H. destruct H as (_ & _ & Hall & Hsorted).
  split; [exact Hall|]. apply Hsorted.
  repeat constructor. apply (bool_decide_unpack _). by vm_compute.
Defined.

Lemma createChatMessage_listed_witness :
  let '(st', message) :=
    MemStorage.createChatMessage "m-9" 4000 (chat "i-1" "more units needed")
      sample_store_2 in
  message ∈ MemStorage.getChatMessages "i-1" st'
  ∧ MemStorage.getChatMessages "i-1" st'
    ≡ₚ message :: MemStorage.getChatMessages "i-1" sample_store_2
  ∧ (∀ other, other ≠ "i-1" →
       MemStorage.getChatMessages other st'
       = MemStorage.getChatMessages other sample_store_2)
  ∧ message !! "messageType"
    = Some (if truthy (get (chat "i-1" "more units needed") "messageType")
            then get (chat "i-1" "more units needed") "messageType" else VStr "text").
Proof.
  apply (createChatMessage_listed "m-9" "i-1" 4000 (chat "i-1" "more units needed")
           sample_store_2); reflexivity.
Defined.

Lemma step_keeps_ids_witness :
  (∀ id, is_Some (MemStorage.getEmergencyUnit id sample_store) →
         is_Some (MemStorage.getEmergencyUnit id sample_store_1))
  ∧ (List.length (MemStorage.incidents sample_store)
     ≤ List.length (MemStorage.incidents sample_store_1))%nat.
Proof.
  destruct (step_keeps_ids sample_store sample_store_1
              (MemStorage.step_createIncident "i-1" 2000 2000 sample_report sample_store))
    as (_ & _ & _ & Hunits & _ & Hincidents & _).
  split; [exact Hunits|exact Hincidents].
Defined.

Lemma chat_messages_write_once_witness :
  Forall (λ entry : string * obj,
            entry.2 !! "id" = Some (VStr entry.1) ∧ MemStorage.dated entry.2)
         (MemStorage.chatMessages sample_store_2).
Proof.
  exact (proj1 (chat_messages_write_once sample_store_2 sample_store_2)
           sample_store_2_reachable).
Defined.

Lemma createEmergencyUnit_available_witness :
  let available := Some (literal [Field "status" (VStr "available")]) in
  let '(st', unit) := MemStorage.createEmergencyUnit "e-9" 5000 sample_unit sample_store in
  unit !! "status" = Some (VStr "available")
  ∧ unit !! "currentIncidentId" = Some VNull
  ∧ MemStorage.getEmergencyUnit "e-9" st' = Some unit
  ∧ MemStorage.getEmergencyUnits None st'
    = MemStorage.getEmergencyUnits None sample_store ++ [unit]
  ∧ MemStorage.getEmergencyUnits available st'
    = MemStorage.getEmergencyUnits available sample_store ++ [unit].
Proof.
  apply (createEmergencyUnit_available "e-9" 5000 sample_unit sample_store).
  reflexivity.
Defined.

Lemma post_incident_defaults_and_whitelist_witness :
  ∃ incident,
    (post_incident (VObj sample_incident) sample_world).1 = Response 201 (VObj incident)
    ∧ incident !! "priority" = Some (VStr "medium")
    ∧ incident !! "isSilent" = Some (VBool false)
    ∧ incident !! "assignedResponderId" = None.
Proof.
  destruct (post_incident_defaults_and_whitelist sample_incident sample_world)
    as (incident & Hresp & Hstrip & Hpriority & Hsilent & _).
  { apply (bool_decide_unpack _). by vm_compute. }
  exists incident. split; [exact Hresp|].
  split; [apply Hpriority; reflexivity|]. split; [apply Hsilent; reflexivity|].
  apply Hstrip, (bool_decide_unpack _). by vm_compute.
Defined.

Lemma post_incident_audit_witness :
  ∃ log,
    auditLogs (db (post_incident (VObj sample_incident) sample_world).2)
      = <[key_at sample_world (S (pushes sample_world)) := log]>
          (auditLogs (db sample_world))
    ∧ log !! "action" = Some (VStr "create_incident")
    ∧ log !! "userId" = Some (or_else (get sample_incident "reporterId") (VStr "system")).
Proof.
  destruct (post_incident_audit sample_incident sample_world)
    as (log & Hlogs & Haction & _ & _ & Huser & _).
  { apply (bool_decide_unpack _). by vm_compute. }
  exists log. split; [exact Hlogs|]. split; [exact Haction|exact Huser].
Defined.

Lemma rejected_requests_change_nothing_witness :
  patch_incident "k0" VNull sample_world_1
    = (handleError "Failed to update incident", sample_world_1)
  ∧ post_assign "k0" (assign_body "") sample_world_1
    = (Response 400 (error_body "Responder ID is required"), sample_world_1).
Proof.
  split.
  - apply (proj1 (rejected_requests_change_nothing "k0" VNull VUndef sample_world_1)).
    reflexivity.
  - apply (proj2 (rejected_requests_change_nothing "k0" (assign_body "") (VStr "")
                    sample_world_1)); reflexivity.
Defined.


Lemma snapshot_values_listed (c : gmap string obj) :
  snapshot_values c ≡ₚ (map_to_list c).*2.
Proof. reflexivity. Qed.

Lemma get_incidents_lists_active_witness :
  ∃ listed,
    get_incidents snapshot_values sample_world_1
      = (Response 200 (VArr (VObj <$> listed)), sample_world_1)
    ∧ (List.length listed ≤ size (incidents (db sample_world_1)))%nat
    ∧ DispatcherConsole.select listed = listed.
Proof.
  destruct (get_incidents_lists_active snapshot_values sample_world_1
              snapshot_values_listed)
    as (listed & Hrun & _ & Hlength & Hselect & _).
  exists listed. split; [exact Hrun|]. split; [exact Hlength|exact Hselect].
Defined.



Lemma on_message_changes_iff_chat_witness :
  db (on_message (Some (VObj chat_frame)) sample_world).2 ≠ db sample_world
  ∧ db (on_message (Some (VObj chat_frame_without_content)) sample_world).2
    = db sample_world
  ∧ clients (on_message (Some (VObj chat_frame_without_content)) sample_world).2
    = clients sample_world.
Proof.
  assert (∀ frame : obj,
            (∀ k, k ∈ ["incidentId"; "content"; "senderId"] →
                  get frame k = VUndef ∨ scalar (get frame k) = true) →
            ∀ message k, Some (VObj frame) = Some (VObj message) →
                         k ∈ ["incidentId"; "content"; "senderId"] →
                         get message k = VUndef ∨ scalar (get message k) = true)
    as Hfields by (intros frame H message k [= <-]; apply H).
  split.
  - assert (∀ k, k ∈ ["incidentId"; "content"; "senderId"] →
                 scalar (get chat_frame k) = true) as Hall.
    { intros k Hk. repeat (apply elem_of_cons in Hk as [->|Hk]; [reflexivity|]).
      by apply elem_of_nil in Hk. }
    pose proof (on_message_changes_iff_chat (Some (VObj chat_frame)) sample_world
                  eq_refl (Hfields chat_frame (λ k Hk, or_intror (Hall k Hk))))
      as [Hiff _].
    intros Hsame. apply Hiff in Hsame. apply Hsame.
    exists chat_frame. split; [reflexivity|]. split; [reflexivity|exact Hall].
  - assert (∀ k, k ∈ ["incidentId"; "content"; "senderId"] →
                 get chat_frame_without_content k = VUndef
                 ∨ scalar (get chat_frame_without_content k) = true) as Hsome.
    { intros k Hk.
      repeat (apply elem_of_cons in Hk as [->|Hk];
              [first [right; reflexivity|left; reflexivity]|]).
      by apply elem_of_nil in Hk. }
    pose proof (on_message_changes_iff_chat (Some (VObj chat_frame_without_content))
                  sample_world eq_refl (Hfields _ Hsome)) as [Hiff Hclients].
    assert (db (on_message (Some (VObj chat_frame_without_content)) sample_world).2
            = db sample_world) as Hdb.
    { apply Hiff. intros (m & [= <-] & _ & Hall).
      assert (scalar (get chat_frame_without_content "content") = true) as Hbad
        by (apply Hall; solve_elem).
      discriminate Hbad. }
    split; [exact Hdb|exact (Hclients Hdb)].
Defined.


Lemma sample_page_reachable : Home.reachable sample_page.
Proof.
  unfold sample_page.
  apply Home.reach_event; [|reflexivity].
  apply Home.reach_event; [|reflexivity]. apply Home.reach_initial.
Qed.

Lemma home_view_follows_role_witness :
  Home.currentView sample_page = Home.service
  ∧ Home.role sample_page ∈ [VStr "responder"; VStr "service_admin"; VStr "global_admin"].
Proof.
  destruct (home_view_follows_role sample_page sample_page_reachable)
    as (_ & _ & Hservice & _).
  split; [reflexivity|]. apply Hservice. reflexivity.
Defined.

Lemma home_offered_views_granted_witness :
  Home.handleViewChange Home.citizen sample_page
  = Home.State (Some sample_admin) Home.citizen.
Proof.
  apply (proj1 (home_offered_views_granted sample_page sample_admin Home.citizen
                  sample_page_reachable eq_refl (list_elem_of_here _ _))).
  discriminate.
Defined.



Lemma self_declared_role_opens_view_witness :
  ∃ user,
    SimpleAuthLogin.handleSubmit
      (SimpleAuthLogin.Form "+233200000009" "Kofi" "global_admin" "") 1700 1701 1702
      = SimpleAuthLogin.LoginAfter 1000 user
    ∧ Home.currentView
        (Home.handle Home.RoleEffect (Home.handle (Home.Login user) Home.initial))
      = Home.global_admin.
Proof.
  eexists. split; [reflexivity|].
  apply (self_declared_role_opens_view
           (SimpleAuthLogin.Form "+233200000009" "Kofi" "global_admin" "")
           1700 1701 1702 1000 _ eq_refl).
  reflexivity.
Defined.

Lemma patch_incident_timestamps_witness :
  ∃ updated,
    (patch_incident "k0"
       (VObj (literal [Field "status" (VStr "accepted"); Field "updatedAt" (VTime 5)]))
       sample_world_1).1 = Response 200 (VObj updated)
    ∧ updated !! "status" = Some (VStr "accepted")
    ∧ updated !! "updatedAt" = Some (VTime 5).
Proof.
  assert (plain (literal [Field "status" (VStr "accepted"); Field "updatedAt" (VTime 5)])
          = true) as Hplain by (by vm_compute).
  pose proof (patch_incident_timestamps "k0"
                (literal [Field "status" (VStr "accepted"); Field "updatedAt" (VTime 5)])
                sample_world_1 eq_refl Hplain) as H.
  cbv zeta in H. destruct H as (updated & Hresp & _ & _ & Htruthy).
  destruct (Htruthy eq_refl) as (Hstatus & Hupdated & _).
  exists updated. split; [exact Hresp|]. split; [exact Hstatus|exact Hupdated].
Defined.
